(** * Story / Chapter / Bubble backend: the hierarchical document access layer

    A shallow embedding of [src/main.py] and [src/schemas.py].

    - Request handlers are computations in a small state-and-exception monad
      [M] over a [World]: the contents of the three collections plus the log
      of the store operations issued so far.
    - [bson.ObjectId] and the server-side cursor sort of the document store
      are external to the repository; they enter through the interfaces
      [BsonObjectId] and [CursorSort].  A concrete instance of each is given
      so that every handler can be run on concrete requests.
    - Stored documents are the records of the entity model: every field has
      its declared type, and [order] may be absent from a stored child
      (the read paths use [d.get("order", 0)]).
    - The handlers are modelled over a connected store ([db] is not [None]). *)

From Stdlib Require Import ZArith NArith List String Ascii Bool Lia.
From Stdlib Require Import Permutation Sorted.
From stdpp Require Import base strings gmap.
Import ListNotations.

Local Open Scope string_scope.
Local Open Scope Z_scope.

(* ===================================================================== *)
(** ** External interface: bson.ObjectId *)
(* ===================================================================== *)

(** [ObjectId_parse s] is the constructor call [ObjectId(s)] on a string:
    [None] stands for [bson.errors.InvalidId].  [ObjectId_str o] is [str(o)].
    [ObjectId_new] is the generator used by the store when it assigns the
    identity of an inserted document. *)
Class BsonObjectId := {
  ObjectId : Type;
  ObjectId_eqb : ObjectId -> ObjectId -> bool;
  ObjectId_eqb_spec : forall a b, ObjectId_eqb a b = true <-> a = b;
  ObjectId_parse : string -> option ObjectId;
  ObjectId_str : ObjectId -> string;
  ObjectId_new : list ObjectId -> ObjectId;
  ObjectId_new_fresh : forall l, ~ In (ObjectId_new l) l
}.

(** [ObjectId.is_valid(s)]: bson tries the constructor and reports whether it
    raised. *)
Definition ObjectId_is_valid `{BsonObjectId} (s : string) : bool :=
  match ObjectId_parse s with
  | Some _ => true
  | None => false
  end.

(* ===================================================================== *)
(** ** Ordering of sort keys *)
(* ===================================================================== *)

(** BSON comparison of an optional integer field: a missing field sorts as
    null, and null sorts before every number. *)
Definition bson_leb (a b : option Z) : bool :=
  match a, b with
  | None, _ => true
  | Some _, None => false
  | Some x, Some y => x <=? y
  end.

(** The store's [cursor.sort("order", 1)]: the matching documents in
    ascending BSON order of the key; the relative order of documents whose
    keys tie is up to the server. *)
Class CursorSort := {
  cursor_sort : forall {A : Type}, (A -> option Z) -> list A -> list A;
  cursor_sort_perm :
    forall (A : Type) (key : A -> option Z) (l : list A),
      Permutation (cursor_sort key l) l;
  cursor_sort_sorted :
    forall (A : Type) (key : A -> option Z) (l : list A),
      StronglySorted (fun x y => bson_leb (key x) (key y) = true)
                     (cursor_sort key l)
}.

(** Stable insertion sort for a boolean order [leb]: [x] is placed before the
    first element it is below-or-equal to, so elements that compare equal keep
    the order they had in the input. *)
Fixpoint insert_by {A : Type} (leb : A -> A -> bool) (x : A) (l : list A)
  : list A :=
  match l with
  | [] => [x]
  | y :: l' => if leb x y then x :: y :: l' else y :: insert_by leb x l'
  end.

Fixpoint isort {A : Type} (leb : A -> A -> bool) (l : list A) : list A :=
  match l with
  | [] => []
  | x :: l' => insert_by leb x (isort leb l')
  end.

(** Python's builtin [sorted(l, key=key)] for integer keys: ascending and,
    by the language definition, stable. *)
Definition sorted {A : Type} (key : A -> Z) (l : list A) : list A :=
  isort (fun x y => key x <=? key y) l.

(** A JSON request body before validation (numbers are the integers). *)
#[warnings="-register-all"]
Inductive json :=
| JNull
| JBool (b : bool)
| JNum (z : Z)
| JStr (s : string)
| JArr (l : list json)
| JObj (l : list (string * json)).

(* ===================================================================== *)
(** ** Data model *)
(* ===================================================================== *)

Section Backend.

Context `{OID : BsonObjectId} `{CS : CursorSort}.

(** Stored documents, one record type per collection. *)
Record StoryDoc := {
  s_id : ObjectId;
  s_title : string;
  s_author : option string;
  s_cover_image : option string;
  s_description : option string
}.

Record ChapterDoc := {
  ch_id : ObjectId;
  ch_story_id : string;
  ch_title : string;
  ch_order : option Z
}.

Record BubbleDoc := {
  b_id : ObjectId;
  b_chapter_id : string;
  b_content_html : string;
  b_order : option Z
}.

(** The database: collections "story", "chapter" and "bubble", each in the
    store's natural order. *)
Record Db := {
  story : list StoryDoc;
  chapter : list ChapterDoc;
  bubble : list BubbleDoc
}.

Inductive Collection := c_story | c_chapter | c_bubble.

(** Operations that reach the store. *)
Inductive StoreOp :=
| op_find_one (c : Collection)
| op_count_documents (c : Collection)
| op_find (c : Collection)
| op_insert_one (c : Collection).

Record World := {
  db : Db;
  log : list StoreOp
}.

(** Exceptions a request can end with.  [HTTPException] is raised by the
    handlers; [RequestValidationError] by the framework when the body does
    not fit the request model; anything else raised inside a handler is
    [Unhandled]. *)
Inductive Exn :=
| HTTPException (status_code : Z) (detail : string)
| RequestValidationError
| Unhandled (exc : string).

(** HTTP status the framework answers with. *)
Definition status_of_exn (e : Exn) : Z :=
  match e with
  | HTTPException c _ => c
  | RequestValidationError => 422
  | Unhandled _ => 500
  end.

Definition status_of {A : Type} (r : Exn + A) : Z :=
  match r with
  | inl e => status_of_exn e
  | inr _ => 200
  end.

Definition is_client_error (c : Z) : bool := (400 <=? c) && (c <? 500).
Definition is_server_error (c : Z) : bool := (500 <=? c) && (c <? 600).

(* ===================================================================== *)
(** ** The handler monad *)
(* ===================================================================== *)

Definition M (A : Type) : Type := World -> (Exn + A) * World.

Definition ret {A : Type} (a : A) : M A := fun w => (inr a, w).

Definition raise {A : Type} (e : Exn) : M A := fun w => (inl e, w).

Definition bind {A B : Type} (m : M A) (k : A -> M B) : M B :=
  fun w =>
    match m w with
    | (inl e, w') => (inl e, w')
    | (inr a, w') => k a w'
    end.

Notation "'let*' x ':=' m 'in' k" := (bind m (fun x => k))
  (at level 10, x name, m at level 100, k at level 200).

(** [[f(x) for x in l]] where [f] may touch the store. *)
Fixpoint mapM {A B : Type} (f : A -> M B) (l : list A) : M (list B) :=
  match l with
  | [] => ret []
  | x :: l' =>
      let* y := f x in
      let* ys := mapM f l' in
      ret (y :: ys)
  end.

Definition log_op (o : StoreOp) (w : World) : World :=
  {| db := db w; log := log w ++ [o] |}.

(* ===================================================================== *)
(** ** Store operations *)
(* ===================================================================== *)

(** [ObjectId(s)] inside a handler. *)
Definition ObjectId_ctor (s : string) : M ObjectId :=
  match ObjectId_parse s with
  | Some o => ret o
  | None => raise (Unhandled "bson.errors.InvalidId")
  end.

(** [db["story"].find_one({"_id": o})] *)
Definition find_one_story (o : ObjectId) : M (option StoryDoc) :=
  fun w =>
    (inr (List.find (fun d => ObjectId_eqb (s_id d) o) (story (db w))),
     log_op (op_find_one c_story) w).

(** [db["story"].count_documents({"_id": o})] *)
Definition count_documents_story (o : ObjectId) : M nat :=
  fun w =>
    (inr (length (List.filter (fun d => ObjectId_eqb (s_id d) o) (story (db w)))),
     log_op (op_count_documents c_story) w).

(** [db["chapter"].count_documents({"_id": o})] *)
Definition count_documents_chapter (o : ObjectId) : M nat :=
  fun w =>
    (inr (length (List.filter (fun d => ObjectId_eqb (ch_id d) o) (chapter (db w)))),
     log_op (op_count_documents c_chapter) w).

Definition chapters_of (story_id : string) (d : Db) : list ChapterDoc :=
  List.filter (fun c => String.eqb (ch_story_id c) story_id) (chapter d).

Definition bubbles_of (chapter_id : string) (d : Db) : list BubbleDoc :=
  List.filter (fun b => String.eqb (b_chapter_id b) chapter_id) (bubble d).

(** [list(db["chapter"].find({"story_id": story_id}).sort("order", 1))] *)
Definition find_sort_chapter (story_id : string) : M (list ChapterDoc) :=
  fun w =>
    (inr (cursor_sort ch_order (chapters_of story_id (db w))),
     log_op (op_find c_chapter) w).

(** [list(db["bubble"].find({"chapter_id": chapter_id}).sort("order", 1))] *)
Definition find_sort_bubble (chapter_id : string) : M (list BubbleDoc) :=
  fun w =>
    (inr (cursor_sort b_order (bubbles_of chapter_id (db w))),
     log_op (op_find c_bubble) w).

(** Modelled from the spec: [get_documents] of the repository's database
    module, which is not among the sources.  It is the adapter's findAll:
    all records of the collection that match the equality filter, in the
    order the store returns them. *)
Definition get_documents_chapter (story_id : string) : M (list ChapterDoc) :=
  fun w => (inr (chapters_of story_id (db w)), log_op (op_find c_chapter) w).

Definition get_documents_bubble (chapter_id : string) : M (list BubbleDoc) :=
  fun w => (inr (bubbles_of chapter_id (db w)), log_op (op_find c_bubble) w).

Definition get_documents_story : M (list StoryDoc) :=
  fun w => (inr (story (db w)), log_op (op_find c_story) w).

(* ===================================================================== *)
(** ** Request models, schemas and response views *)
(* ===================================================================== *)

(** Request models of [main.py]. *)
Record StoryCreate := {
  sc_title : string;
  sc_author : option string;
  sc_cover_image : option string;
  sc_description : option string
}.

Record ChapterCreate := {
  cc_story_id : string;
  cc_title : string;
  cc_order : Z
}.

Record BubbleCreate := {
  bc_chapter_id : string;
  bc_content_html : string;
  bc_order : Z
}.

(** Schemas of [schemas.py]. *)
Record StorySchema := {
  st_title : string;
  st_author : option string;
  st_cover_image : option string;
  st_description : option string
}.

Record ChapterSchema := {
  cs_story_id : string;
  cs_title : string;
  cs_order : Z
}.

Record BubbleSchema := {
  bs_chapter_id : string;
  bs_content_html : string;
  bs_order : Z
}.

(** Response models and the nested dictionaries of the detail view. *)
Record StoryOut := {
  so_id : string;
  so_title : string;
  so_author : option string;
  so_cover_image : option string;
  so_description : option string
}.

Record ChapterOut := {
  co_id : string;
  co_story_id : string;
  co_title : string;
  co_order : Z
}.

Record BubbleOut := {
  bo_id : string;
  bo_chapter_id : string;
  bo_content_html : string;
  bo_order : Z
}.

Record BubbleEntry := {
  be_id : string;
  be_content_html : string;
  be_order : Z
}.

Record ChapterEntry := {
  ce_id : string;
  ce_title : string;
  ce_order : Z;
  ce_bubbles : list BubbleEntry
}.

Record StoryDetail := {
  sd_id : string;
  sd_title : string;
  sd_author : option string;
  sd_cover_image : option string;
  sd_description : option string;
  sd_chapters : list ChapterEntry
}.

(** A required field annotated [str]: present and a JSON string. *)
Definition validate_str (v : option json) : option string :=
  match v with
  | Some (JStr s) => Some s
  | _ => None
  end.

(** A field annotated [Optional[str] = None]: absent, null or a string. *)
Definition validate_optional_str (v : option json) : option (option string) :=
  match v with
  | None => Some None
  | Some JNull => Some None
  | Some (JStr s) => Some (Some s)
  | Some _ => None
  end.

(** Validation of a request body against [StoryCreate]; [None] is a
    validation failure. *)
Definition StoryCreate_validate (body : gmap string json) : option StoryCreate :=
  match validate_str (body !! "title") with
  | None => None
  | Some t =>
    match validate_optional_str (body !! "author") with
    | None => None
    | Some a =>
      match validate_optional_str (body !! "cover_image") with
      | None => None
      | Some c =>
        match validate_optional_str (body !! "description") with
        | None => None
        | Some d =>
            Some {| sc_title := t; sc_author := a;
                    sc_cover_image := c; sc_description := d |}
        end
      end
    end
  end.

(** [StorySchema] built from [payload.model_dump()]: every field of [Story] is a plain
    [str] or [Optional[str]], so the construction succeeds. *)
Definition StorySchema_init (p : StoryCreate) : M StorySchema :=
  ret {| st_title := sc_title p; st_author := sc_author p;
         st_cover_image := sc_cover_image p;
         st_description := sc_description p |}.

(** [ChapterSchema] built from [payload.model_dump()]: [order] is declared
    [Field(0, ge=0)]; a violation raises [pydantic.ValidationError] inside
    the handler. *)
Definition ChapterSchema_init (p : ChapterCreate) : M ChapterSchema :=
  if 0 <=? cc_order p
  then ret {| cs_story_id := cc_story_id p; cs_title := cc_title p;
              cs_order := cc_order p |}
  else raise (Unhandled "pydantic.ValidationError").

(** [BubbleSchema] built from [payload.model_dump()], with the same
    [ge=0]. *)
Definition BubbleSchema_init (p : BubbleCreate) : M BubbleSchema :=
  if 0 <=? bc_order p
  then ret {| bs_chapter_id := bc_chapter_id p;
              bs_content_html := bc_content_html p;
              bs_order := bc_order p |}
  else raise (Unhandled "pydantic.ValidationError").

(** Modelled from the spec: [create_document] of the repository's database
    module, which is not among the sources.  It is the adapter's insert: the
    record is stored under a newly generated identity, whose string form is
    returned. *)
Definition create_document_story (s : StorySchema) : M string :=
  fun w =>
    let o := ObjectId_new (map s_id (story (db w))) in
    let d := {| s_id := o; s_title := st_title s; s_author := st_author s;
                s_cover_image := st_cover_image s;
                s_description := st_description s |} in
    (inr (ObjectId_str o),
     log_op (op_insert_one c_story)
       {| db := {| story := story (db w) ++ [d];
                   chapter := chapter (db w);
                   bubble := bubble (db w) |};
          log := log w |}).

Definition create_document_chapter (c : ChapterSchema) : M string :=
  fun w =>
    let o := ObjectId_new (map ch_id (chapter (db w))) in
    let d := {| ch_id := o; ch_story_id := cs_story_id c;
                ch_title := cs_title c; ch_order := Some (cs_order c) |} in
    (inr (ObjectId_str o),
     log_op (op_insert_one c_chapter)
       {| db := {| story := story (db w);
                   chapter := chapter (db w) ++ [d];
                   bubble := bubble (db w) |};
          log := log w |}).

Definition create_document_bubble (b : BubbleSchema) : M string :=
  fun w =>
    let o := ObjectId_new (map b_id (bubble (db w))) in
    let d := {| b_id := o; b_chapter_id := bs_chapter_id b;
                b_content_html := bs_content_html b;
                b_order := Some (bs_order b) |} in
    (inr (ObjectId_str o),
     log_op (op_insert_one c_bubble)
       {| db := {| story := story (db w);
                   chapter := chapter (db w);
                   bubble := bubble (db w) ++ [d] |};
          log := log w |}).

(** [d.get("order", 0)] *)
Definition get_order (o : option Z) : Z :=
  match o with
  | Some z => z
  | None => 0
  end.

(* ===================================================================== *)
(** ** Story endpoints *)
(* ===================================================================== *)

Definition create_story (payload : StoryCreate) : M string :=
  let* story := StorySchema_init payload in
  let* _id := create_document_story story in
  ret _id.

(** POST /api/stories: the framework validates the body against
    [StoryCreate] and only then calls the handler. *)
Definition route_create_story (body : gmap string json) : M string :=
  match StoryCreate_validate body with
  | None => raise RequestValidationError
  | Some payload => create_story payload
  end.

Definition story_out (d : StoryDoc) : StoryOut :=
  {| so_id := ObjectId_str (s_id d);
     so_title := s_title d;
     so_author := s_author d;
     so_cover_image := s_cover_image d;
     so_description := s_description d |}.

Definition list_stories : M (list StoryOut) :=
  let* docs := get_documents_story in
  ret (map story_out docs).

Definition bubble_entry (b : BubbleDoc) : BubbleEntry :=
  {| be_id := ObjectId_str (b_id b);
     be_content_html := b_content_html b;
     be_order := get_order (b_order b) |}.

(** The body of the loop over [chapters] in [get_story_detail]. *)
Definition chapter_entry (ch : ChapterDoc) : M ChapterEntry :=
  let* bubbles := find_sort_bubble (ObjectId_str (ch_id ch)) in
  ret {| ce_id := ObjectId_str (ch_id ch);
         ce_title := ch_title ch;
         ce_order := get_order (ch_order ch);
         ce_bubbles := map bubble_entry bubbles |}.

(** The entry the loop body builds for [ch] when the database is [d]. *)
Definition chapter_entry_of (d : Db) (ch : ChapterDoc) : ChapterEntry :=
  {| ce_id := ObjectId_str (ch_id ch);
     ce_title := ch_title ch;
     ce_order := get_order (ch_order ch);
     ce_bubbles :=
       map bubble_entry
           (cursor_sort b_order (bubbles_of (ObjectId_str (ch_id ch)) d)) |}.

Definition story_detail_of (story : StoryDoc) (chapter_list : list ChapterEntry)
  : StoryDetail :=
  {| sd_id := ObjectId_str (s_id story);
     sd_title := s_title story;
     sd_author := s_author story;
     sd_cover_image := s_cover_image story;
     sd_description := s_description story;
     sd_chapters := chapter_list |}.

Definition get_story_detail (story_id : string) : M StoryDetail :=
  if negb (ObjectId_is_valid story_id)
  then raise (HTTPException 400 "Invalid story id")
  else
    let* oid := ObjectId_ctor story_id in
    let* story := find_one_story oid in
    match story with
    | None => raise (HTTPException 404 "Story not found")
    | Some story =>
        let* chapters := find_sort_chapter story_id in
        let* chapter_list := mapM chapter_entry chapters in
        ret (story_detail_of story chapter_list)
    end.

(* ===================================================================== *)
(** ** Chapter endpoints *)
(* ===================================================================== *)

Definition create_chapter (payload : ChapterCreate) : M string :=
  if negb (ObjectId_is_valid (cc_story_id payload))
  then raise (HTTPException 400 "Invalid story id")
  else
    let* oid := ObjectId_ctor (cc_story_id payload) in
    let* n := count_documents_story oid in
    if Nat.eqb n 0
    then raise (HTTPException 404 "Parent story not found")
    else
      let* chapter := ChapterSchema_init payload in
      let* _id := create_document_chapter chapter in
      ret _id.

Definition chapter_out (d : ChapterDoc) : ChapterOut :=
  {| co_id := ObjectId_str (ch_id d);
     co_story_id := ch_story_id d;
     co_title := ch_title d;
     co_order := get_order (ch_order d) |}.

Definition list_chapters (story_id : string) : M (list ChapterOut) :=
  let* docs := get_documents_chapter story_id in
  let docs := sorted (fun x => get_order (ch_order x)) docs in
  ret (map chapter_out docs).

(* ===================================================================== *)
(** ** Bubble endpoints *)
(* ===================================================================== *)

Definition create_bubble (payload : BubbleCreate) : M string :=
  if negb (ObjectId_is_valid (bc_chapter_id payload))
  then raise (HTTPException 400 "Invalid chapter id")
  else
    let* oid := ObjectId_ctor (bc_chapter_id payload) in
    let* n := count_documents_chapter oid in
    if Nat.eqb n 0
    then raise (HTTPException 404 "Parent chapter not found")
    else
      let* bubble := BubbleSchema_init payload in
      let* _id := create_document_bubble bubble in
      ret _id.

Definition bubble_out (d : BubbleDoc) : BubbleOut :=
  {| bo_id := ObjectId_str (b_id d);
     bo_chapter_id := b_chapter_id d;
     bo_content_html := b_content_html d;
     bo_order := get_order (b_order d) |}.

Definition list_bubbles (chapter_id : string) : M (list BubbleOut) :=
  let* docs := get_documents_bubble chapter_id in
  let docs := sorted (fun x => get_order (b_order x)) docs in
  ret (map bubble_out docs).

(** The database in which every child that lacks [order] carries an
    explicit [order] of 0; used to state that the read paths do not tell the
    two apart. *)
Definition explicit_order_chapter (d : ChapterDoc) : ChapterDoc :=
  {| ch_id := ch_id d; ch_story_id := ch_story_id d; ch_title := ch_title d;
     ch_order := Some (get_order (ch_order d)) |}.

Definition explicit_order_bubble (d : BubbleDoc) : BubbleDoc :=
  {| b_id := b_id d; b_chapter_id := b_chapter_id d;
     b_content_html := b_content_html d;
     b_order := Some (get_order (b_order d)) |}.

Definition explicit_orders (w : World) : World :=
  {| db := {| story := story (db w);
              chapter := map explicit_order_chapter (chapter (db w));
              bubble := map explicit_order_bubble (bubble (db w)) |};
     log := log w |}.

(** What a well-formed optional text field of a request body is, and the
    value it stands for: absent or null for no value, a JSON string for that
    string. *)
Inductive optional_str_field : option json -> option string -> Prop :=
| field_absent : optional_str_field None None
| field_null : optional_str_field (Some JNull) None
| field_str (s : string) : optional_str_field (Some (JStr s)) (Some s).

(** Identities are unique within each collection. *)
Definition ids_unique (d : Db) : Prop :=
  List.NoDup (map s_id (story d)) /\
  List.NoDup (map ch_id (chapter d)) /\
  List.NoDup (map b_id (bubble d)).

(** Every stored child names a stored parent: the [story_id] of a chapter
    parses to the identity of a stored story, and the [chapter_id] of a
    bubble to the identity of a stored chapter. *)
Definition parents_exist (d : Db) : Prop :=
  (forall c, In c (chapter d) ->
     exists s, In s (story d) /\ ObjectId_parse (ch_story_id c) = Some (s_id s))
  /\
  (forall b, In b (bubble d) ->
     exists c, In c (chapter d) /\
               ObjectId_parse (b_chapter_id b) = Some (ch_id c)).

(** No stored child carries a negative [order]. *)
Definition no_negative_order (d : Db) : Prop :=
  (forall c z, In c (chapter d) -> ch_order c = Some z -> 0 <= z) /\
  (forall b z, In b (bubble d) -> b_order b = Some z -> 0 <= z).

(** [d'] holds the records of [d], unchanged and in place, and possibly more
    after them. *)
Definition db_extends (d d' : Db) : Prop :=
  (exists t, story d' = (story d ++ t)%list) /\
  (exists t, chapter d' = (chapter d ++ t)%list) /\
  (exists t, bubble d' = (bubble d ++ t)%list).

Definition is_insert (o : StoreOp) : bool :=
  match o with
  | op_insert_one _ => true
  | _ => false
  end.

End Backend.

(* ===================================================================== *)
(** ** The diagnostic endpoint *)
(* ===================================================================== *)

(** Text, as the interpreter has it: a sequence of code points. *)
Definition pystr : Type := list N.

(** The code points of an ASCII literal. *)
Definition py (s : string) : pystr :=
  map N_of_ascii (list_ascii_of_string s).

Definition check_mark : pystr := [9989%N].            (* U+2705 *)
Definition cross_mark : pystr := [10060%N].           (* U+274C *)
Definition warning_sign : pystr := [9888%N; 65039%N]. (* U+26A0 U+FE0F *)

(** What [hasattr(db, 'name')] and [db.name] find: no such attribute, a
    name, or an exception other than [AttributeError], which [hasattr] lets
    through. *)
Inductive NameAttr :=
| name_missing
| name_is (s : pystr)
| name_raises (msg : pystr).

(** The store handle as [test_database] uses it.
    [h_list_collection_names] is the outcome of [db.list_collection_names()]:
    [inl msg] for an exception [e] with [str(e) = msg]. *)
Record DbHandle := {
  h_name : NameAttr;
  h_list_collection_names : pystr + list pystr
}.

Record TestResponse := {
  r_backend : pystr;
  r_database : pystr;
  r_database_url : option pystr;
  r_database_name : option pystr;
  r_connection_status : pystr;
  r_collections : list pystr
}.

Definition set_database (v : pystr) (r : TestResponse) : TestResponse :=
  {| r_backend := r_backend r; r_database := v;
     r_database_url := r_database_url r;
     r_database_name := r_database_name r;
     r_connection_status := r_connection_status r;
     r_collections := r_collections r |}.

Definition set_database_url (v : pystr) (r : TestResponse) : TestResponse :=
  {| r_backend := r_backend r; r_database := r_database r;
     r_database_url := Some v;
     r_database_name := r_database_name r;
     r_connection_status := r_connection_status r;
     r_collections := r_collections r |}.

Definition set_database_name (v : pystr) (r : TestResponse) : TestResponse :=
  {| r_backend := r_backend r; r_database := r_database r;
     r_database_url := r_database_url r;
     r_database_name := Some v;
     r_connection_status := r_connection_status r;
     r_collections := r_collections r |}.

Definition set_connection_status (v : pystr) (r : TestResponse)
  : TestResponse :=
  {| r_backend := r_backend r; r_database := r_database r;
     r_database_url := r_database_url r;
     r_database_name := r_database_name r;
     r_connection_status := v;
     r_collections := r_collections r |}.

Definition set_collections (v : list pystr) (r : TestResponse)
  : TestResponse :=
  {| r_backend := r_backend r; r_database := r_database r;
     r_database_url := r_database_url r;
     r_database_name := r_database_name r;
     r_connection_status := r_connection_status r;
     r_collections := v |}.

(** The dictionary [test_database] starts from. *)
Definition initial_response : TestResponse :=
  {| r_backend := (check_mark ++ py " Running")%list;
     r_database := (cross_mark ++ py " Not Available")%list;
     r_database_url := None;
     r_database_name := None;
     r_connection_status := py "Not Connected";
     r_collections := [] |}.

(** Truth value of [os.getenv("DATABASE_URL")]: set and not empty. *)
Definition env_truthy (v : option pystr) : bool :=
  match v with
  | Some (_ :: _) => true
  | _ => false
  end.

(** GET /test.  [db_handle] is the module's [db] ([None] when the store was
    not initialised) and [DATABASE_URL] the environment variable. *)
Definition test_database (db_handle : option DbHandle)
           (DATABASE_URL : option pystr) : TestResponse :=
  let response := initial_response in
  match db_handle with
  | Some h =>
      let response :=
        set_database (check_mark ++ py " Available")%list response in
      let response :=
        set_database_url
          (if env_truthy DATABASE_URL
           then (check_mark ++ py " Set")%list
           else (cross_mark ++ py " Not Set")%list) response in
      match h_name h with
      | name_raises msg =>
          (* the outer [except] *)
          set_database (cross_mark ++ py " Error: " ++ firstn 80 msg)%list
                       response
      | attr =>
          let response :=
            set_database_name
              (match attr with
               | name_is s => s
               | _ => py "Unknown"
               end) response in
          let response :=
            set_connection_status (py "Connected") response in
          match h_list_collection_names h with
          | inr collections =>
              let response :=
                set_collections (firstn 10 collections) response in
              set_database (check_mark ++ py " Connected & Working")%list
                           response
          | inl msg =>
              set_database
                (warning_sign ++ py "  Connected but Error: "
                              ++ firstn 80 msg)%list response
          end
      end
  | None =>
      set_database (warning_sign ++ py "  Available but not initialized")%list
                   response
  end.


(* ===================================================================== *)
(** ** A concrete identity format and a concrete cursor sort *)
(* ===================================================================== *)

(** An identity is a byte string; it is kept as the number of its bytes
    together with their big-endian value.  The constructor reads a string of
    24 characters with [bytes.fromhex], the string form is the hexadecimal
    dump in lower case, and the store generates identities of 12 bytes. *)
Definition hex_val (c : ascii) : option N :=
  let n := N_of_ascii c in
  if ((48 <=? n) && (n <=? 57))%N then Some (n - 48)%N
  else if ((97 <=? n) && (n <=? 102))%N then Some (n - 87)%N
  else if ((65 <=? n) && (n <=? 70))%N then Some (n - 55)%N
  else None.

(** ASCII whitespace: space, tab, line feed, vertical tab, form feed and
    carriage return. *)
Definition is_space (c : ascii) : bool :=
  let n := N_of_ascii c in
  ((n =? 32) || ((9 <=? n) && (n <=? 13)))%N.

(** [bytes.fromhex]: whitespace is skipped in front of a byte, and a byte is
    two hexadecimal digits next to each other; anything else is an error. *)
Fixpoint fromhex (s : string) (acc : nat * N) : option (nat * N) :=
  match s with
  | EmptyString => Some acc
  | String c s' =>
      if is_space c then fromhex s' acc
      else
        match hex_val c, s' with
        | Some top, String c2 s'' =>
            match hex_val c2 with
            | Some bot =>
                fromhex s'' (S (fst acc), (256 * snd acc + 16 * top + bot)%N)
            | None => None
            end
        | _, _ => None
        end
  end.

Definition hex_digit (n : N) : ascii :=
  if (n <? 10)%N then ascii_of_N (48 + n) else ascii_of_N (87 + n).

Fixpoint hex_render (k : nat) (n : N) (acc : string) : string :=
  match k with
  | O => acc
  | S k' => hex_render k' (n / 16)%N (String (hex_digit (n mod 16)%N) acc)
  end.

Definition hex24_parse (s : string) : option (nat * N) :=
  if Nat.eqb (String.length s) 24 then fromhex s (O, 0%N) else None.

Definition hex24_str (o : nat * N) : string :=
  hex_render (2 * fst o) (snd o) EmptyString.

Definition oid_eqb (a b : nat * N) : bool :=
  Nat.eqb (fst a) (fst b) && N.eqb (snd a) (snd b).

(** The identity of 12 bytes with value [n]. *)
Definition oid12 (n : N) : nat * N := (12%nat, n).

Definition next_id (l : list (nat * N)) : nat * N :=
  oid12 (N.succ (fold_right N.max 0%N (map snd l))).

(** The stable sort as a cursor sort. *)
Definition stable_sort_by {A : Type} (key : A -> option Z) (l : list A)
  : list A :=
  isort (fun x y => bson_leb (key x) (key y)) l.

(* ===================================================================== *)
(** ** Facts about the insertion sort *)
(* ===================================================================== *)

Section InsertionSort.

Context {A : Type} (leb : A -> A -> bool).

Lemma insert_by_perm (x : A) (l : list A) :
  Permutation (insert_by leb x l) (x :: l).
Proof.
  induction l as [|y l IH]; simpl.
  - apply Permutation_refl.
  - destruct (leb x y).
    + apply Permutation_refl.
    + apply perm_trans with (y :: x :: l).
      * apply perm_skip, IH.
      * apply perm_swap.
Qed.

Lemma isort_perm (l : list A) : Permutation (isort leb l) l.
Proof.
  induction l as [|x l IH]; simpl.
  - apply perm_nil.
  - apply perm_trans with (x :: isort leb l).
    + apply insert_by_perm.
    + apply perm_skip, IH.
Qed.

Hypothesis leb_total : forall x y, leb x y = true \/ leb y x = true.
Hypothesis leb_trans :
  forall x y z, leb x y = true -> leb y z = true -> leb x z = true.

Lemma insert_by_sorted (x : A) (l : list A) :
  StronglySorted (fun a b => leb a b = true) l ->
  StronglySorted (fun a b => leb a b = true) (insert_by leb x l).
Proof.
  induction 1 as [|y l Hs IH Hall]; simpl.
  - constructor; constructor.
  - destruct (leb x y) eqn:Hxy.
    + constructor.
      * constructor; assumption.
      * constructor; [assumption|].
        eapply List.Forall_impl; [|exact Hall].
        intros z Hyz. simpl in Hyz. eapply leb_trans; eassumption.
    + constructor; [assumption|].
      assert (Hyx : leb y x = true).
      { destruct (leb_total x y) as [H'|H']; congruence. }
      eapply Permutation_Forall.
      * apply Permutation_sym, insert_by_perm.
      * constructor; assumption.
Qed.

Lemma isort_sorted (l : list A) :
  StronglySorted (fun a b => leb a b = true) (isort leb l).
Proof.
  induction l as [|x l IH]; simpl.
  - constructor.
  - apply insert_by_sorted, IH.
Qed.

End InsertionSort.

Lemma bson_leb_total (a b : option Z) :
  bson_leb a b = true \/ bson_leb b a = true.
Proof.
  destruct a as [x|], b as [y|]; simpl; auto.
  destruct (Z.leb_spec x y); [left|right]; [reflexivity|].
  apply Z.leb_le; lia.
Qed.

Lemma bson_leb_trans (a b c : option Z) :
  bson_leb a b = true -> bson_leb b c = true -> bson_leb a c = true.
Proof.
  destruct a as [x|], b as [y|], c as [z|]; simpl; try congruence.
  rewrite !Z.leb_le; lia.
Qed.

Lemma next_id_fresh (l : list (nat * N)) : ~ In (next_id l) l.
Proof.
  assert (Hmax : forall x, In x l ->
                           (snd x <= fold_right N.max 0 (map snd l))%N).
  { induction l as [|y l IH]; simpl; intros x Hx; [contradiction|].
    destruct Hx as [->|Hx]; [lia|]. specialize (IH x Hx). lia. }
  intros Hin. apply Hmax in Hin. unfold next_id, oid12 in Hin.
  cbn [snd] in Hin. lia.
Qed.

Lemma oid_eqb_spec (a b : nat * N) : oid_eqb a b = true <-> a = b.
Proof.
  destruct a as [n x], b as [m y]. unfold oid_eqb. cbn [fst snd].
  rewrite andb_true_iff, Nat.eqb_eq, N.eqb_eq. split.
  - intros [-> ->]. reflexivity.
  - intros H. injection H as -> ->. split; reflexivity.
Qed.

(** Sorting by an integer key: stability and compatibility with a map that
    keeps the key. *)
Section SortedByKey.

Context {A : Type} (key : A -> Z).

Lemma insert_by_key_filter (k : Z) (x : A) (l : list A) :
  List.filter (fun a => key a =? k)
              (insert_by (fun a b => key a <=? key b) x l)
  = List.filter (fun a => key a =? k) (x :: l).
Proof.
  induction l as [|y l IH].
  - reflexivity.
  - cbn [insert_by]. destruct (Z.leb_spec (key x) (key y)) as [Hle|Hlt].
    + reflexivity.
    + cbn [List.filter] in *. rewrite IH.
      destruct (Z.eqb_spec (key x) k) as [Hx|Hx];
        destruct (Z.eqb_spec (key y) k) as [Hy|Hy];
        try reflexivity.
      exfalso; lia.
Qed.

Lemma sorted_stable (k : Z) (l : list A) :
  List.filter (fun a => key a =? k) (sorted key l)
  = List.filter (fun a => key a =? k) l.
Proof.
  unfold sorted. induction l as [|x l IH].
  - reflexivity.
  - cbn [isort]. rewrite insert_by_key_filter.
    cbn [List.filter]. rewrite IH. reflexivity.
Qed.

Lemma sorted_perm (l : list A) : Permutation (sorted key l) l.
Proof. apply isort_perm. Qed.

Lemma sorted_nondecreasing (l : list A) :
  StronglySorted (fun a b => key a <= key b) (sorted key l).
Proof.
  assert (Hs : StronglySorted (fun a b => (key a <=? key b) = true)
                              (sorted key l)).
  { apply isort_sorted.
    - intros x y. destruct (Z.leb_spec (key x) (key y)); [left|right].
      + reflexivity.
      + apply Z.leb_le; lia.
    - intros x y z. rewrite !Z.leb_le. lia. }
  induction Hs as [|a l' Hs IH Hall]; constructor.
  - exact IH.
  - eapply List.Forall_impl; [|exact Hall].
    intros b Hb. apply Z.leb_le. exact Hb.
Qed.

End SortedByKey.

Lemma sorted_map {A B : Type} (key : B -> Z) (f : A -> B) (l : list A) :
  sorted key (map f l) = map f (sorted (fun a => key (f a)) l).
Proof.
  unfold sorted. induction l as [|x l IH].
  - reflexivity.
  - cbn [map isort]. rewrite IH.
    generalize (isort (fun a b => key (f a) <=? key (f b)) l). intros s.
    induction s as [|y s IHs].
    + reflexivity.
    + cbn [map insert_by]. destruct (key (f x) <=? key (f y)).
      * reflexivity.
      * cbn [map]. rewrite IHs. reflexivity.
Qed.

#[export] Instance hex24_ObjectId : BsonObjectId := {|
  ObjectId := nat * N;
  ObjectId_eqb := oid_eqb;
  ObjectId_eqb_spec := oid_eqb_spec;
  ObjectId_parse := hex24_parse;
  ObjectId_str := hex24_str;
  ObjectId_new := next_id;
  ObjectId_new_fresh := next_id_fresh
|}.

#[export] Instance stable_CursorSort : CursorSort := {|
  cursor_sort := @stable_sort_by;
  cursor_sort_perm := fun A key l =>
    isort_perm (fun x y => bson_leb (key x) (key y)) l;
  cursor_sort_sorted := fun A key l =>
    isort_sorted (fun x y => bson_leb (key x) (key y))
      (fun x y => bson_leb_total (key x) (key y))
      (fun x y z => bson_leb_trans (key x) (key y) (key z)) l
|}.

(* ===================================================================== *)
(** ** Concrete worlds *)
(* ===================================================================== *)

Definition w_empty : World :=
  {| db := {| story := []; chapter := []; bubble := [] |}; log := [] |}.

Definition id1 : string := "000000000000000000000001".
Definition id2 : string := "000000000000000000000002".
Definition id9 : string := "000000000000000000000009".

(** The store of the specification's example: story S1 titled "A", chapters
    C1 (order 1) and C2 (order 0) of S1, and bubble B1 in C1. *)
Definition story_A : StoryDoc :=
  {| s_id := oid12 1; s_title := "A"; s_author := None;
     s_cover_image := None; s_description := None |}.

Definition w_spec : World :=
  {| db :=
       {| story := [story_A];
          chapter :=
            [{| ch_id := oid12 1; ch_story_id := id1; ch_title := "C1";
                ch_order := Some 1 |};
             {| ch_id := oid12 2; ch_story_id := id1; ch_title := "C2";
                ch_order := Some 0 |}];
          bubble :=
            [{| b_id := oid12 1; b_chapter_id := id1;
                b_content_html := "<p>x</p>"; b_order := Some 0 |}] |};
     log := [] |}.

(** A store with one story and nothing below it. *)
Definition story_AB : StoryDoc :=
  {| s_id := oid12 1; s_title := "A"; s_author := Some "B";
     s_cover_image := None; s_description := None |}.

Definition w_story_only : World :=
  {| db := {| story := [story_AB]; chapter := []; bubble := [] |};
     log := [] |}.

(** A store with children written without an [order] field: the chapter
    "old" of story 1 and the bubble "<p>old</p>" of chapter 1. *)
Definition chapter_old : ChapterDoc :=
  {| ch_id := oid12 1; ch_story_id := id1; ch_title := "old";
     ch_order := None |}.

Definition bubble_old : BubbleDoc :=
  {| b_id := oid12 2; b_chapter_id := id1; b_content_html := "<p>old</p>";
     b_order := None |}.

Definition w_legacy : World :=
  {| db :=
       {| story := [story_A];
          chapter :=
            [chapter_old;
             {| ch_id := oid12 2; ch_story_id := id1; ch_title := "new";
                ch_order := Some 0 |}];
          bubble :=
            [{| b_id := oid12 1; b_chapter_id := id1;
                b_content_html := "<p>new</p>"; b_order := Some 0 |};
             bubble_old] |};
     log := [] |}.

(** A request body whose title is the empty string. *)
Definition body_empty_title : gmap string json :=
  {[ "title" := JStr EmptyString ]}.

Definition id3 : string := "000000000000000000000003".

(** Payloads for the example store: a third chapter of S1 and a second
    bubble, in chapter C2. *)
Definition payload_C3 : ChapterCreate :=
  {| cc_story_id := id1; cc_title := "C3"; cc_order := 2 |}.

Definition payload_B2 : BubbleCreate :=
  {| bc_chapter_id := id2; bc_content_html := "<p>y</p>"; bc_order := 0 |}.

(** A request body with a string title and an author that is a number. *)
Definition body_numeric_author : gmap string json :=
  {[ "title" := JStr "T"; "author" := JNum 5 ]}.

(** A request body whose title is a number. *)
Definition body_numeric_title : gmap string json :=
  {[ "title" := JNum 7 ]}.

(** The chapters of [w_spec], by name. *)
Definition chapter_C1 : ChapterDoc :=
  {| ch_id := oid12 1; ch_story_id := id1; ch_title := "C1";
     ch_order := Some 1 |}.

Definition chapter_C2 : ChapterDoc :=
  {| ch_id := oid12 2; ch_story_id := id1; ch_title := "C2";
     ch_order := Some 0 |}.

(** Store handles for the diagnostic endpoint. *)
Definition handle_ok : DbHandle :=
  {| h_name := name_is (py "stories");
     h_list_collection_names := inr [py "story"; py "chapter"; py "bubble"] |}.

Definition handle_failing : DbHandle :=
  {| h_name := name_is (py "stories");
     h_list_collection_names := inl (py "connection refused") |}.

(** A store of records that were not written through the handlers: a chapter
    with a negative order next to one without order. *)
Definition w_negative : World :=
  {| db := {| story := [story_A];
              chapter :=
                [{| ch_id := oid12 2; ch_story_id := id1; ch_title := "minus";
                    ch_order := Some (-1) |};
                 chapter_old];
              bubble := [] |};
     log := [] |}.

(** Store handles for the diagnostic endpoint. *)
(** Sequencing of two requests: the second runs in the world the first
    left. *)
Definition run_then {A B : Type} (r : (Exn + A) * World)
  (k : A -> World -> (Exn + B) * World) : (Exn + B) * World :=
  match r with
  | (inl e, w) => (inl e, w)
  | (inr a, w) => k a w
  end.

(** The requests of the specification's example, from the empty store. *)
Definition spec_example : (Exn + StoryDetail) * World :=
  run_then (create_story {| sc_title := "A"; sc_author := None;
                            sc_cover_image := None;
                            sc_description := None |} w_empty)
    (fun S1 w =>
  run_then (create_chapter {| cc_story_id := S1; cc_title := "C1";
                              cc_order := 1 |} w)
    (fun C1 w =>
  run_then (create_chapter {| cc_story_id := S1; cc_title := "C2";
                              cc_order := 0 |} w)
    (fun C2 w =>
  run_then (create_bubble {| bc_chapter_id := C1;
                             bc_content_html := "<p>x</p>";
                             bc_order := 0 |} w)
    (fun B1 w => get_story_detail S1 w)))).

(* ===================================================================== *)
(** ** Properties of the handlers *)
(* ===================================================================== *)

Section Properties.

Context `{OID : BsonObjectId} `{CS : CursorSort}.

Lemma ObjectId_is_valid_parse (s : string) :
  ObjectId_is_valid s = true <-> exists o, ObjectId_parse s = Some o.
Proof.
  unfold ObjectId_is_valid. destruct (ObjectId_parse s) as [o|].
  - split; [eauto|reflexivity].
  - split; [discriminate|intros [o Ho]; discriminate].
Qed.

Lemma log_op_db (o : StoreOp) (w : World) : db (log_op o w) = db w.
Proof. reflexivity. Qed.

Lemma find_none_iff {A : Type} (p : A -> bool) (l : list A) :
  List.find p l = None <-> forall x, In x l -> p x = false.
Proof.
  induction l as [|y l IH]; simpl.
  - split; [intros _ x []|reflexivity].
  - destruct (p y) eqn:Hy.
    + split; [discriminate|]. intros H. specialize (H y (or_introl eq_refl)).
      congruence.
    + rewrite IH. split.
      * intros H x [<-|Hx]; auto.
      * intros H x Hx. apply H. right. exact Hx.
Qed.

Lemma filter_nil_iff {A : Type} (p : A -> bool) (l : list A) :
  List.filter p l = [] <-> forall x, In x l -> p x = false.
Proof.
  induction l as [|y l IH]; simpl.
  - split; [intros _ x []|reflexivity].
  - destruct (p y) eqn:Hy.
    + split; [discriminate|]. intros H. specialize (H y (or_introl eq_refl)).
      congruence.
    + rewrite IH. split.
      * intros H x [<-|Hx]; auto.
      * intros H x Hx. apply H. right. exact Hx.
Qed.

Lemma ObjectId_eqb_false (a b : ObjectId) :
  ObjectId_eqb a b = false <-> a <> b.
Proof.
  destruct (ObjectId_eqb a b) eqn:E.
  - apply ObjectId_eqb_spec in E. split; [discriminate|contradiction].
  - split; [|reflexivity]. intros _ Hab. apply ObjectId_eqb_spec in Hab.
    congruence.
Qed.

(** C1: a malformed story id is answered 400 with the world untouched (no
    store operation is issued); a well-formed id that no stored story carries
    is answered 404 after the single lookup; neither answer is a server
    error. *)
Theorem get_story_detail_errors (story_id : string) (w : World) :
  (ObjectId_is_valid story_id = false ->
     get_story_detail story_id w
       = (inl (HTTPException 400 "Invalid story id"), w)
     /\ is_client_error (status_of (fst (get_story_detail story_id w))) = true
     /\ is_server_error (status_of (fst (get_story_detail story_id w))) = false)
  /\
  (ObjectId_is_valid story_id = true ->
   (forall d, In d (story (db w)) -> ObjectId_parse story_id <> Some (s_id d)) ->
     get_story_detail story_id w
       = (inl (HTTPException 404 "Story not found"),
          {| db := db w; log := log w ++ [op_find_one c_story] |})
     /\ is_client_error (status_of (fst (get_story_detail story_id w))) = true
     /\ is_server_error (status_of (fst (get_story_detail story_id w))) = false).
Proof.
  split.
  - intros Hinv.
    assert (E : get_story_detail story_id w
                = (inl (HTTPException 400 "Invalid story id"), w)).
    { unfold get_story_detail. rewrite Hinv. reflexivity. }
    rewrite E. repeat split.
  - intros Hval Hnone.
    apply ObjectId_is_valid_parse in Hval as [oid Hoid].
    assert (E : get_story_detail story_id w
                = (inl (HTTPException 404 "Story not found"),
                   {| db := db w; log := log w ++ [op_find_one c_story] |})).
    { unfold get_story_detail, ObjectId_is_valid, ObjectId_ctor.
      rewrite Hoid. cbn [negb]. unfold bind, ret, find_one_story.
      assert (Hf : List.find (fun d => ObjectId_eqb (s_id d) oid) (story (db w))
                   = None).
      { apply find_none_iff. intros d Hd. apply ObjectId_eqb_false.
        intros Heq. apply (Hnone d Hd). rewrite Hoid, Heq. reflexivity. }
      rewrite Hf. reflexivity. }
    rewrite E. repeat split.
Qed.

(** The loop over the chapters issues one bubble query per chapter and
    leaves the database as it is. *)
Lemma mapM_chapter_entry (chs : list ChapterDoc) (w : World) :
  mapM chapter_entry chs w
  = (inr (map (chapter_entry_of (db w)) chs),
     {| db := db w;
        log := log w ++ repeat (op_find c_bubble) (length chs) |}).
Proof.
  revert w. induction chs as [|ch chs IH]; intros w.
  - cbn. rewrite app_nil_r. destruct w; reflexivity.
  - cbn [mapM]. unfold bind at 1. unfold chapter_entry at 1.
    unfold bind at 1. unfold find_sort_bubble at 1. unfold ret at 1.
    unfold bind at 1. rewrite IH. unfold ret. cbn [length repeat map].
    rewrite log_op_db. unfold chapter_entry_of at 2. cbn [log_op log].
    rewrite <- app_assoc. reflexivity.
Qed.

(** The successful path of [get_story_detail], in closed form. *)
Lemma get_story_detail_found (story_id : string) (w : World)
      (oid : ObjectId) (st : StoryDoc) :
  ObjectId_parse story_id = Some oid ->
  List.find (fun d => ObjectId_eqb (s_id d) oid) (story (db w)) = Some st ->
  get_story_detail story_id w
  = (inr (story_detail_of st
            (map (chapter_entry_of (db w))
                 (cursor_sort ch_order (chapters_of story_id (db w))))),
     {| db := db w;
        log := log w ++ [op_find_one c_story; op_find c_chapter]
               ++ repeat (op_find c_bubble)
                         (length (chapters_of story_id (db w))) |}).
Proof.
  intros Hoid Hfind.
  unfold get_story_detail, ObjectId_is_valid, ObjectId_ctor.
  rewrite Hoid. cbn [negb].
  unfold bind at 1. unfold ret at 1.
  unfold bind at 1. unfold find_one_story at 1. rewrite Hfind.
  unfold bind at 1. unfold find_sort_chapter at 1.
  unfold bind at 1. rewrite mapM_chapter_entry. unfold ret.
  cbn [log_op db log].
  rewrite (Permutation_length (cursor_sort_perm _ _ _)).
  rewrite <- !app_assoc. reflexivity.
Qed.

(** Every outcome of [get_story_detail] is one of three: 400, 404 or the
    assembled tree of the first stored story carrying the parsed id. *)
Lemma get_story_detail_inv (story_id : string) (w w' : World)
      (detail : StoryDetail) :
  get_story_detail story_id w = (inr detail, w') ->
  exists oid st,
    ObjectId_parse story_id = Some oid /\
    List.find (fun d => ObjectId_eqb (s_id d) oid) (story (db w)) = Some st /\
    detail = story_detail_of st
               (map (chapter_entry_of (db w))
                    (cursor_sort ch_order (chapters_of story_id (db w)))).
Proof.
  intros Hrun.
  destruct (ObjectId_parse story_id) as [oid|] eqn:Hoid.
  - destruct (List.find (fun d => ObjectId_eqb (s_id d) oid) (story (db w)))
      as [st|] eqn:Hfind.
    + rewrite (get_story_detail_found _ _ _ _ Hoid Hfind) in Hrun.
      exists oid, st. split; [reflexivity|]. split; [exact Hfind|].
      congruence.
    + exfalso. revert Hrun.
      unfold get_story_detail, ObjectId_is_valid, ObjectId_ctor.
      rewrite Hoid. cbn [negb]. unfold bind, ret, find_one_story.
      rewrite Hfind. unfold raise. discriminate.
  - exfalso. revert Hrun. unfold get_story_detail, ObjectId_is_valid.
    rewrite Hoid. cbn [negb]. unfold raise. discriminate.
Qed.

Lemma find_some_first {A : Type} (p : A -> bool) (l : list A) (x : A) :
  In x l -> p x = true -> exists y, List.find p l = Some y.
Proof.
  induction l as [|z l IH]; simpl; [intros []|].
  intros [->|Hx] Hp.
  - rewrite Hp. eauto.
  - destruct (p z); eauto.
Qed.

Lemma find_unique (l : list StoryDoc) (st st' : StoryDoc) :
  List.NoDup (map s_id l) -> In st l -> In st' l -> s_id st = s_id st' -> st = st'.
Proof.
  induction l as [|d l IH]; simpl; [intros _ []|].
  intros Hnd Hst Hst' Heq. inversion Hnd as [|? ? Hnotin Hnd']; subst.
  destruct Hst as [<-|Hst], Hst' as [<-|Hst'].
  - reflexivity.
  - exfalso. apply Hnotin. rewrite Heq. apply in_map. exact Hst'.
  - exfalso. apply Hnotin. rewrite <- Heq. apply in_map. exact Hst.
  - apply IH; assumption.
Qed.

(** C5: a stored story that no chapter references is fetched successfully;
    the answer carries the story's own fields and the empty list of
    chapters. *)
Theorem get_story_detail_no_chapters (story_id : string) (w : World)
        (st : StoryDoc) :
  In st (story (db w)) ->
  ObjectId_parse story_id = Some (s_id st) ->
  (forall c, In c (chapter (db w)) -> ch_story_id c <> story_id) ->
  exists st' w',
    In st' (story (db w)) /\ s_id st' = s_id st /\
    (List.NoDup (map s_id (story (db w))) -> st' = st) /\
    get_story_detail story_id w
    = (inr {| sd_id := ObjectId_str (s_id st');
              sd_title := s_title st';
              sd_author := s_author st';
              sd_cover_image := s_cover_image st';
              sd_description := s_description st';
              sd_chapters := [] |}, w') /\
    db w' = db w.
Proof.
  intros Hin Hoid Hnone.
  destruct (find_some_first (fun d => ObjectId_eqb (s_id d) (s_id st))
                            (story (db w)) st Hin) as [st' Hfind].
  { apply ObjectId_eqb_spec. reflexivity. }
  pose proof (find_some _ _ Hfind) as [Hin' Heq'].
  apply ObjectId_eqb_spec in Heq'.
  assert (Hch : chapters_of story_id (db w) = []).
  { unfold chapters_of. apply filter_nil_iff. intros c Hc.
    apply String.eqb_neq. apply Hnone. exact Hc. }
  eexists st', _. split; [exact Hin'|]. split; [exact Heq'|].
  split.
  { intros Hnd. symmetry. eapply find_unique; eauto. }
  rewrite (get_story_detail_found _ _ _ _ Hoid Hfind).
  rewrite Hch.
  assert (Hs : cursor_sort ch_order (@nil ChapterDoc) = []).
  { apply Permutation_nil. apply Permutation_sym, cursor_sort_perm. }
  rewrite Hs. split; reflexivity.
Qed.

Lemma chapters_of_In (story_id : string) (d : Db) (c : ChapterDoc) :
  In c (chapters_of story_id d)
  <-> In c (chapter d) /\ ch_story_id c = story_id.
Proof.
  unfold chapters_of. rewrite filter_In, String.eqb_eq. reflexivity.
Qed.

Lemma bubbles_of_In (chapter_id : string) (d : Db) (b : BubbleDoc) :
  In b (bubbles_of chapter_id d)
  <-> In b (bubble d) /\ b_chapter_id b = chapter_id.
Proof.
  unfold bubbles_of. rewrite filter_In, String.eqb_eq. reflexivity.
Qed.

Lemma cursor_sort_In {A : Type} (key : A -> option Z) (l : list A) (x : A) :
  In x (cursor_sort key l) <-> In x l.
Proof.
  split; apply Permutation_in.
  - apply cursor_sort_perm.
  - apply Permutation_sym, cursor_sort_perm.
Qed.

(** The chapter entries of a successful detail fetch are the entries of the
    stored chapters carrying the requested story id. *)
Lemma detail_entry_inv (story_id : string) (w w' : World)
      (detail : StoryDetail) (e : ChapterEntry) :
  get_story_detail story_id w = (inr detail, w') ->
  In e (sd_chapters detail) <->
  exists ch, In ch (chapter (db w)) /\ ch_story_id ch = story_id /\
             e = chapter_entry_of (db w) ch.
Proof.
  intros Hrun.
  destruct (get_story_detail_inv _ _ _ _ Hrun) as (oid & st & _ & _ & ->).
  cbn [story_detail_of sd_chapters]. rewrite in_map_iff. split.
  - intros (ch & <- & Hch). apply cursor_sort_In, chapters_of_In in Hch.
    destruct Hch as [Hin Hsid]. exists ch. auto.
  - intros (ch & Hin & Hsid & ->). exists ch. split; [reflexivity|].
    apply cursor_sort_In, chapters_of_In. auto.
Qed.


(* --------------------------------------------------------------------- *)
(** *** Child creation *)

(** [create_chapter] once the story id has parsed: the count decides between
    404 and the schema check, and only a passed schema check reaches the
    insert. *)
Lemma create_chapter_parsed (p : ChapterCreate) (w : World) (oid : ObjectId) :
  ObjectId_parse (cc_story_id p) = Some oid ->
  create_chapter p w
  = if Nat.eqb (length (List.filter (fun d => ObjectId_eqb (s_id d) oid)
                                    (story (db w)))) 0
    then (inl (HTTPException 404 "Parent story not found"),
          log_op (op_count_documents c_story) w)
    else if 0 <=? cc_order p
    then create_document_chapter
           {| cs_story_id := cc_story_id p; cs_title := cc_title p;
              cs_order := cc_order p |}
           (log_op (op_count_documents c_story) w)
    else (inl (Unhandled "pydantic.ValidationError"),
          log_op (op_count_documents c_story) w).
Proof.
  intros Hoid. unfold create_chapter, ObjectId_is_valid, ObjectId_ctor.
  rewrite Hoid. cbn [negb]. unfold bind at 1. unfold ret at 1.
  unfold bind at 1. unfold count_documents_story at 1.
  destruct (Nat.eqb _ 0); [reflexivity|].
  unfold ChapterSchema_init. destruct (0 <=? cc_order p); reflexivity.
Qed.

Lemma create_bubble_parsed (p : BubbleCreate) (w : World) (oid : ObjectId) :
  ObjectId_parse (bc_chapter_id p) = Some oid ->
  create_bubble p w
  = if Nat.eqb (length (List.filter (fun d => ObjectId_eqb (ch_id d) oid)
                                    (chapter (db w)))) 0
    then (inl (HTTPException 404 "Parent chapter not found"),
          log_op (op_count_documents c_chapter) w)
    else if 0 <=? bc_order p
    then create_document_bubble
           {| bs_chapter_id := bc_chapter_id p;
              bs_content_html := bc_content_html p;
              bs_order := bc_order p |}
           (log_op (op_count_documents c_chapter) w)
    else (inl (Unhandled "pydantic.ValidationError"),
          log_op (op_count_documents c_chapter) w).
Proof.
  intros Hoid. unfold create_bubble, ObjectId_is_valid, ObjectId_ctor.
  rewrite Hoid. cbn [negb]. unfold bind at 1. unfold ret at 1.
  unfold bind at 1. unfold count_documents_chapter at 1.
  destruct (Nat.eqb _ 0); [reflexivity|].
  unfold BubbleSchema_init. destruct (0 <=? bc_order p); reflexivity.
Qed.

Lemma count_zero_iff {A : Type} (p : A -> bool) (l : list A) :
  Nat.eqb (length (List.filter p l)) 0 = true
  <-> forall x, In x l -> p x = false.
Proof.
  rewrite Nat.eqb_eq, length_zero_iff_nil. apply filter_nil_iff.
Qed.

Lemma count_nonzero_iff {A : Type} (p : A -> bool) (l : list A) :
  Nat.eqb (length (List.filter p l)) 0 = false
  <-> exists x, In x l /\ p x = true.
Proof.
  split.
  - intros Hn. destruct (List.filter p l) as [|x l'] eqn:Hf;
      [discriminate|].
    exists x. apply filter_In. rewrite Hf. left. reflexivity.
  - intros (x & Hx & Hp). destruct (Nat.eqb _ 0) eqn:Hz; [|reflexivity].
    rewrite count_zero_iff in Hz. specialize (Hz x Hx). congruence.
Qed.

Lemma create_chapter_checks_parent (p : ChapterCreate) (w : World) :
  (ObjectId_is_valid (cc_story_id p) = false ->
     create_chapter p w = (inl (HTTPException 400 "Invalid story id"), w))
  /\
  (ObjectId_is_valid (cc_story_id p) = true ->
   (forall d, In d (story (db w)) ->
              ObjectId_parse (cc_story_id p) <> Some (s_id d)) ->
     create_chapter p w
     = (inl (HTTPException 404 "Parent story not found"),
        {| db := db w; log := log w ++ [op_count_documents c_story] |}))
  /\
  (db (snd (create_chapter p w)) <> db w ->
     exists d, In d (story (db w)) /\
               ObjectId_parse (cc_story_id p) = Some (s_id d)).
Proof.
  split; [|split].
  - intros Hinv. unfold create_chapter. rewrite Hinv. reflexivity.
  - intros Hval Hnone. apply ObjectId_is_valid_parse in Hval as [oid Hoid].
    rewrite (create_chapter_parsed _ _ _ Hoid).
    assert (Hz : Nat.eqb (length (List.filter
                   (fun d => ObjectId_eqb (s_id d) oid) (story (db w)))) 0
                 = true).
    { apply count_zero_iff. intros d Hd. apply ObjectId_eqb_false.
      intros Heq. apply (Hnone d Hd). rewrite Hoid, Heq. reflexivity. }
    rewrite Hz. reflexivity.
  - intros Hchg.
    destruct (ObjectId_parse (cc_story_id p)) as [oid|] eqn:Hoid.
    + rewrite (create_chapter_parsed _ _ _ Hoid) in Hchg.
      destruct (Nat.eqb _ 0) eqn:Hz.
      * exfalso. apply Hchg. reflexivity.
      * apply count_nonzero_iff in Hz as (d & Hd & Heq).
        apply ObjectId_eqb_spec in Heq. exists d. split; [exact Hd|].
        rewrite Heq. reflexivity.
    + exfalso. apply Hchg. unfold create_chapter, ObjectId_is_valid.
      rewrite Hoid. reflexivity.
Qed.

Lemma create_bubble_checks_parent (p : BubbleCreate) (w : World) :
  (ObjectId_is_valid (bc_chapter_id p) = false ->
     create_bubble p w = (inl (HTTPException 400 "Invalid chapter id"), w))
  /\
  (ObjectId_is_valid (bc_chapter_id p) = true ->
   (forall d, In d (chapter (db w)) ->
              ObjectId_parse (bc_chapter_id p) <> Some (ch_id d)) ->
     create_bubble p w
     = (inl (HTTPException 404 "Parent chapter not found"),
        {| db := db w; log := log w ++ [op_count_documents c_chapter] |}))
  /\
  (db (snd (create_bubble p w)) <> db w ->
     exists d, In d (chapter (db w)) /\
               ObjectId_parse (bc_chapter_id p) = Some (ch_id d)).
Proof.
  split; [|split].
  - intros Hinv. unfold create_bubble. rewrite Hinv. reflexivity.
  - intros Hval Hnone. apply ObjectId_is_valid_parse in Hval as [oid Hoid].
    rewrite (create_bubble_parsed _ _ _ Hoid).
    assert (Hz : Nat.eqb (length (List.filter
                   (fun d => ObjectId_eqb (ch_id d) oid) (chapter (db w)))) 0
                 = true).
    { apply count_zero_iff. intros d Hd. apply ObjectId_eqb_false.
      intros Heq. apply (Hnone d Hd). rewrite Hoid, Heq. reflexivity. }
    rewrite Hz. reflexivity.
  - intros Hchg.
    destruct (ObjectId_parse (bc_chapter_id p)) as [oid|] eqn:Hoid.
    + rewrite (create_bubble_parsed _ _ _ Hoid) in Hchg.
      destruct (Nat.eqb _ 0) eqn:Hz.
      * exfalso. apply Hchg. reflexivity.
      * apply count_nonzero_iff in Hz as (d & Hd & Heq).
        apply ObjectId_eqb_spec in Heq. exists d. split; [exact Hd|].
        rewrite Heq. reflexivity.
    + exfalso. apply Hchg. unfold create_bubble, ObjectId_is_valid.
      rewrite Hoid. reflexivity.
Qed.

(** The success path: an existing parent and a non-negative order lead to
    exactly one insert into the child collection. *)
Lemma create_chapter_inserts (p : ChapterCreate) (w : World) (d : StoryDoc) :
  In d (story (db w)) ->
  ObjectId_parse (cc_story_id p) = Some (s_id d) ->
  0 <= cc_order p ->
  create_chapter p w
  = (inr (ObjectId_str (ObjectId_new (map ch_id (chapter (db w))))),
     {| db := {| story := story (db w);
                 chapter := chapter (db w)
                   ++ [{| ch_id := ObjectId_new (map ch_id (chapter (db w)));
                          ch_story_id := cc_story_id p;
                          ch_title := cc_title p;
                          ch_order := Some (cc_order p) |}];
                 bubble := bubble (db w) |};
        log := log w ++ [op_count_documents c_story; op_insert_one c_chapter] |}).
Proof.
  intros Hd Hoid Hord. rewrite (create_chapter_parsed _ _ _ Hoid).
  assert (Hz : Nat.eqb (length (List.filter
                 (fun x => ObjectId_eqb (s_id x) (s_id d)) (story (db w)))) 0
               = false).
  { apply count_nonzero_iff. exists d. split; [exact Hd|].
    apply ObjectId_eqb_spec. reflexivity. }
  rewrite Hz. apply Z.leb_le in Hord. rewrite Hord.
  unfold create_document_chapter, log_op. cbn [db log cs_story_id cs_title cs_order].
  rewrite <- app_assoc. reflexivity.
Qed.

Lemma create_bubble_inserts (p : BubbleCreate) (w : World) (d : ChapterDoc) :
  In d (chapter (db w)) ->
  ObjectId_parse (bc_chapter_id p) = Some (ch_id d) ->
  0 <= bc_order p ->
  create_bubble p w
  = (inr (ObjectId_str (ObjectId_new (map b_id (bubble (db w))))),
     {| db := {| story := story (db w);
                 chapter := chapter (db w);
                 bubble := bubble (db w)
                   ++ [{| b_id := ObjectId_new (map b_id (bubble (db w)));
                          b_chapter_id := bc_chapter_id p;
                          b_content_html := bc_content_html p;
                          b_order := Some (bc_order p) |}] |};
        log := log w ++ [op_count_documents c_chapter; op_insert_one c_bubble] |}).
Proof.
  intros Hd Hoid Hord. rewrite (create_bubble_parsed _ _ _ Hoid).
  assert (Hz : Nat.eqb (length (List.filter
                 (fun x => ObjectId_eqb (ch_id x) (ch_id d)) (chapter (db w)))) 0
               = false).
  { apply count_nonzero_iff. exists d. split; [exact Hd|].
    apply ObjectId_eqb_spec. reflexivity. }
  rewrite Hz. apply Z.leb_le in Hord. rewrite Hord.
  unfold create_document_bubble, log_op.
  cbn [db log bs_chapter_id bs_content_html bs_order].
  rewrite <- app_assoc. reflexivity.
Qed.

(** C2: for both child-create operations, a malformed parent id is answered
    400 with the world untouched (no store operation at all); a well-formed
    parent id without a parent record is answered 404 after the count, with
    the database as it was; and whenever the database changes, the parent
    record exists. *)
Theorem create_child_checks_parent (w : World) :
  (forall p : ChapterCreate,
    (ObjectId_is_valid (cc_story_id p) = false ->
       create_chapter p w = (inl (HTTPException 400 "Invalid story id"), w))
    /\
    (ObjectId_is_valid (cc_story_id p) = true ->
     (forall d, In d (story (db w)) ->
                ObjectId_parse (cc_story_id p) <> Some (s_id d)) ->
       create_chapter p w
       = (inl (HTTPException 404 "Parent story not found"),
          {| db := db w; log := log w ++ [op_count_documents c_story] |}))
    /\
    (db (snd (create_chapter p w)) <> db w ->
       exists d, In d (story (db w)) /\
                 ObjectId_parse (cc_story_id p) = Some (s_id d)))
  /\
  (forall p : BubbleCreate,
    (ObjectId_is_valid (bc_chapter_id p) = false ->
       create_bubble p w = (inl (HTTPException 400 "Invalid chapter id"), w))
    /\
    (ObjectId_is_valid (bc_chapter_id p) = true ->
     (forall d, In d (chapter (db w)) ->
                ObjectId_parse (bc_chapter_id p) <> Some (ch_id d)) ->
       create_bubble p w
       = (inl (HTTPException 404 "Parent chapter not found"),
          {| db := db w; log := log w ++ [op_count_documents c_chapter] |}))
    /\
    (db (snd (create_bubble p w)) <> db w ->
       exists d, In d (chapter (db w)) /\
                 ObjectId_parse (bc_chapter_id p) = Some (ch_id d))).
Proof.
  split; intros p.
  - apply create_chapter_checks_parent.
  - apply create_bubble_checks_parent.
Qed.

(* --------------------------------------------------------------------- *)
(** *** Listing *)

Lemma list_chapters_run (story_id : string) (w : World) :
  list_chapters story_id w
  = (inr (map chapter_out
              (sorted (fun x => get_order (ch_order x))
                      (chapters_of story_id (db w)))),
     {| db := db w; log := log w ++ [op_find c_chapter] |}).
Proof. reflexivity. Qed.

Lemma list_bubbles_run (chapter_id : string) (w : World) :
  list_bubbles chapter_id w
  = (inr (map bubble_out
              (sorted (fun x => get_order (b_order x))
                      (bubbles_of chapter_id (db w)))),
     {| db := db w; log := log w ++ [op_find c_bubble] |}).
Proof. reflexivity. Qed.

Lemma StronglySorted_map {A B : Type} (R : B -> B -> Prop) (f : A -> B)
      (l : list A) :
  StronglySorted (fun a b => R (f a) (f b)) l -> StronglySorted R (map f l).
Proof.
  induction 1 as [|a l Hs IH Hall]; cbn [map]; constructor.
  - exact IH.
  - apply List.Forall_map. exact Hall.
Qed.

Lemma filter_map_comm {A B : Type} (p : B -> bool) (f : A -> B) (l : list A) :
  List.filter p (map f l) = map f (List.filter (fun a => p (f a)) l).
Proof.
  induction l as [|x l IH]; cbn [map List.filter].
  - reflexivity.
  - destruct (p (f x)); cbn [map]; rewrite IH; reflexivity.
Qed.

(** C3: listing the chapters of a story id answers with the views of a
    rearrangement of exactly the stored chapters whose [story_id] equals the
    query value, each as often as it is stored, in non-decreasing stored
    [order] (a missing [order] counting as 0); the view of a record carries
    the string form of its identity, its [story_id], its title and that
    order.  Likewise for the bubbles of a chapter id. *)
Theorem listing_sorted_permutation (w : World) :
  (forall story_id : string,
    exists docs : list ChapterDoc,
      Permutation docs
        (List.filter (fun c => String.eqb (ch_story_id c) story_id)
                     (chapter (db w))) /\
      (forall d, In d docs <->
                 In d (chapter (db w)) /\ ch_story_id d = story_id) /\
      StronglySorted
        (fun a b => match ch_order a with Some z => z | None => 0 end
                    <= match ch_order b with Some z => z | None => 0 end)
        docs /\
      fst (list_chapters story_id w)
      = inr (map (fun d =>
                    {| co_id := ObjectId_str (ch_id d);
                       co_story_id := ch_story_id d;
                       co_title := ch_title d;
                       co_order := match ch_order d with
                                   | Some z => z
                                   | None => 0
                                   end |}) docs) /\
      (forall out, fst (list_chapters story_id w) = inr out ->
         StronglySorted (fun a b => co_order a <= co_order b) out))
  /\
  (forall chapter_id : string,
    exists docs : list BubbleDoc,
      Permutation docs
        (List.filter (fun b => String.eqb (b_chapter_id b) chapter_id)
                     (bubble (db w))) /\
      (forall d, In d docs <->
                 In d (bubble (db w)) /\ b_chapter_id d = chapter_id) /\
      StronglySorted
        (fun a b => match b_order a with Some z => z | None => 0 end
                    <= match b_order b with Some z => z | None => 0 end)
        docs /\
      fst (list_bubbles chapter_id w)
      = inr (map (fun d =>
                    {| bo_id := ObjectId_str (b_id d);
                       bo_chapter_id := b_chapter_id d;
                       bo_content_html := b_content_html d;
                       bo_order := match b_order d with
                                   | Some z => z
                                   | None => 0
                                   end |}) docs) /\
      (forall out, fst (list_bubbles chapter_id w) = inr out ->
         StronglySorted (fun a b => bo_order a <= bo_order b) out)).
Proof.
  split.
  - intros story_id.
    exists (sorted (fun x => get_order (ch_order x))
                   (chapters_of story_id (db w))).
    split; [apply sorted_perm|]. split; [|split; [|split]].
    + intros d. rewrite <- chapters_of_In.
      split; apply Permutation_in;
        [apply sorted_perm | apply Permutation_sym, sorted_perm].
    + exact (sorted_nondecreasing (fun x => get_order (ch_order x))
                                  (chapters_of story_id (db w))).
    + rewrite list_chapters_run. reflexivity.
    + intros out Hout. rewrite list_chapters_run in Hout.
      injection Hout as <-. apply StronglySorted_map.
      cbn [chapter_out co_order]. apply sorted_nondecreasing.
  - intros chapter_id.
    exists (sorted (fun x => get_order (b_order x))
                   (bubbles_of chapter_id (db w))).
    split; [apply sorted_perm|]. split; [|split; [|split]].
    + intros d. rewrite <- bubbles_of_In.
      split; apply Permutation_in;
        [apply sorted_perm | apply Permutation_sym, sorted_perm].
    + exact (sorted_nondecreasing (fun x => get_order (b_order x))
                                  (bubbles_of chapter_id (db w))).
    + rewrite list_bubbles_run. reflexivity.
    + intros out Hout. rewrite list_bubbles_run in Hout.
      injection Hout as <-. apply StronglySorted_map.
      cbn [bubble_out bo_order]. apply sorted_nondecreasing.
Qed.

(** C6: for every parent id string whatsoever the listings answer
    successfully after a single query on the child collection (the parent
    collection is never consulted and nothing is written), and the answer is
    the empty list when no child carries that parent id. *)
Theorem listing_never_fails (w : World) :
  (forall story_id : string,
    (exists out,
       list_chapters story_id w
       = (inr out, {| db := db w; log := log w ++ [op_find c_chapter] |}))
    /\
    ((forall c, In c (chapter (db w)) -> ch_story_id c <> story_id) ->
       list_chapters story_id w
       = (inr [], {| db := db w; log := log w ++ [op_find c_chapter] |})))
  /\
  (forall chapter_id : string,
    (exists out,
       list_bubbles chapter_id w
       = (inr out, {| db := db w; log := log w ++ [op_find c_bubble] |}))
    /\
    ((forall b, In b (bubble (db w)) -> b_chapter_id b <> chapter_id) ->
       list_bubbles chapter_id w
       = (inr [], {| db := db w; log := log w ++ [op_find c_bubble] |}))).
Proof.
  split.
  - intros story_id. rewrite list_chapters_run. split; [eauto|].
    intros Hnone.
    assert (E : chapters_of story_id (db w) = []).
    { apply filter_nil_iff. intros c Hc. apply String.eqb_neq, Hnone, Hc. }
    rewrite E. reflexivity.
  - intros chapter_id. rewrite list_bubbles_run. split; [eauto|].
    intros Hnone.
    assert (E : bubbles_of chapter_id (db w) = []).
    { apply filter_nil_iff. intros b Hb. apply String.eqb_neq, Hnone, Hb. }
    rewrite E. reflexivity.
Qed.

(** C9: the listings keep ties in the order the store returned them: for
    every order value, the records of the answer with that order are the
    fetched records with that order, in the fetched sequence. *)
Theorem listing_sort_stable (w : World) (k : Z) :
  (forall story_id : string,
    exists (fetched : list ChapterDoc) (out : list ChapterOut),
      fst (get_documents_chapter story_id w) = inr fetched /\
      fst (list_chapters story_id w) = inr out /\
      List.filter (fun o => co_order o =? k) out
      = map chapter_out
            (List.filter (fun d => get_order (ch_order d) =? k) fetched))
  /\
  (forall chapter_id : string,
    exists (fetched : list BubbleDoc) (out : list BubbleOut),
      fst (get_documents_bubble chapter_id w) = inr fetched /\
      fst (list_bubbles chapter_id w) = inr out /\
      List.filter (fun o => bo_order o =? k) out
      = map bubble_out
            (List.filter (fun d => get_order (b_order d) =? k) fetched)).
Proof.
  split.
  - intros story_id. eexists _, _. split; [reflexivity|].
    split; [reflexivity|].
    rewrite filter_map_comm. cbn [chapter_out co_order].
    rewrite (sorted_stable (fun x => get_order (ch_order x))).
    reflexivity.
  - intros chapter_id. eexists _, _. split; [reflexivity|].
    split; [reflexivity|].
    rewrite filter_map_comm. cbn [bubble_out bo_order].
    rewrite (sorted_stable (fun x => get_order (b_order x))).
    reflexivity.
Qed.

(* --------------------------------------------------------------------- *)
(** *** Children without an order field *)

Lemma list_chapters_explicit_orders (story_id : string) (w : World) :
  fst (list_chapters story_id (explicit_orders w))
  = fst (list_chapters story_id w).
Proof.
  rewrite !list_chapters_run. cbn [fst]. f_equal.
  unfold chapters_of, explicit_orders. cbn [db chapter].
  rewrite filter_map_comm, sorted_map, map_map. reflexivity.
Qed.

Lemma list_bubbles_explicit_orders (chapter_id : string) (w : World) :
  fst (list_bubbles chapter_id (explicit_orders w))
  = fst (list_bubbles chapter_id w).
Proof.
  rewrite !list_bubbles_run. cbn [fst]. f_equal.
  unfold bubbles_of, explicit_orders. cbn [db bubble].
  rewrite filter_map_comm, sorted_map, map_map. reflexivity.
Qed.

(** C10: a stored child without an [order] field reads as order 0.  The
    listings answer the same whether such a child lacks the field or carries
    an explicit 0 (so it sorts as 0), its view in the listing has order 0, and
    in a successful detail fetch its chapter entry, respectively its nested
    bubble entry, has order 0. *)
Theorem missing_order_reads_as_zero (w : World) :
  (forall story_id : string,
     fst (list_chapters story_id (explicit_orders w))
     = fst (list_chapters story_id w))
  /\
  (forall chapter_id : string,
     fst (list_bubbles chapter_id (explicit_orders w))
     = fst (list_bubbles chapter_id w))
  /\
  (forall d : ChapterDoc,
     In d (chapter (db w)) -> ch_order d = None ->
     exists out,
       fst (list_chapters (ch_story_id d) w) = inr out /\
       In {| co_id := ObjectId_str (ch_id d);
             co_story_id := ch_story_id d;
             co_title := ch_title d;
             co_order := 0 |} out)
  /\
  (forall d : BubbleDoc,
     In d (bubble (db w)) -> b_order d = None ->
     exists out,
       fst (list_bubbles (b_chapter_id d) w) = inr out /\
       In {| bo_id := ObjectId_str (b_id d);
             bo_chapter_id := b_chapter_id d;
             bo_content_html := b_content_html d;
             bo_order := 0 |} out)
  /\
  (forall (story_id : string) (w' : World) (detail : StoryDetail),
     get_story_detail story_id w = (inr detail, w') ->
     (forall ch : ChapterDoc,
        In ch (chapter (db w)) -> ch_story_id ch = story_id ->
        ch_order ch = None ->
        exists e, In e (sd_chapters detail) /\
                  ce_id e = ObjectId_str (ch_id ch) /\
                  ce_title e = ch_title ch /\
                  ce_order e = 0)
     /\
     (forall (e : ChapterEntry) (b : BubbleDoc),
        In e (sd_chapters detail) ->
        In b (bubble (db w)) -> b_chapter_id b = ce_id e ->
        b_order b = None ->
        In {| be_id := ObjectId_str (b_id b);
              be_content_html := b_content_html b;
              be_order := 0 |} (ce_bubbles e))).
Proof.
  split; [intros; apply list_chapters_explicit_orders|].
  split; [intros; apply list_bubbles_explicit_orders|].
  split; [|split].
  - intros d Hd Hord. eexists. rewrite list_chapters_run.
    split; [reflexivity|].
    replace {| co_id := ObjectId_str (ch_id d);
               co_story_id := ch_story_id d;
               co_title := ch_title d; co_order := 0 |}
      with (chapter_out d)
      by (unfold chapter_out; rewrite Hord; reflexivity).
    apply in_map. eapply Permutation_in.
    + apply Permutation_sym, sorted_perm.
    + apply chapters_of_In. auto.
  - intros d Hd Hord. eexists. rewrite list_bubbles_run.
    split; [reflexivity|].
    replace {| bo_id := ObjectId_str (b_id d);
               bo_chapter_id := b_chapter_id d;
               bo_content_html := b_content_html d; bo_order := 0 |}
      with (bubble_out d)
      by (unfold bubble_out; rewrite Hord; reflexivity).
    apply in_map. eapply Permutation_in.
    + apply Permutation_sym, sorted_perm.
    + apply bubbles_of_In. auto.
  - intros story_id w' detail Hrun. split.
    + intros ch Hin Hsid Hord. exists (chapter_entry_of (db w) ch).
      split.
      * apply (detail_entry_inv _ _ _ _ _ Hrun). exists ch. auto.
      * cbn [chapter_entry_of ce_id ce_title ce_order]. rewrite Hord.
        auto.
    + intros e b He Hb Hcid Hord.
      apply (detail_entry_inv _ _ _ _ _ Hrun) in He.
      destruct He as (ch & _ & _ & ->).
      cbn [chapter_entry_of ce_bubbles ce_id] in *.
      replace {| be_id := ObjectId_str (b_id b);
                 be_content_html := b_content_html b; be_order := 0 |}
        with (bubble_entry b)
        by (unfold bubble_entry; rewrite Hord; reflexivity).
      apply in_map. apply cursor_sort_In, bubbles_of_In. auto.
Qed.

(* --------------------------------------------------------------------- *)
(** *** Story creation and the title *)

Lemma route_create_story_rejects (body : gmap string json) (w : World) :
  validate_str (body !! "title") = None ->
  route_create_story body w = (inl RequestValidationError, w).
Proof.
  intros Hv. unfold route_create_story, StoryCreate_validate.
  rewrite Hv. reflexivity.
Qed.

Lemma validate_optional_str_field (v : option json) (a : option string) :
  optional_str_field v a -> validate_optional_str v = Some a.
Proof. intros []; reflexivity. Qed.

Lemma validate_optional_str_other (v : json) :
  v <> JNull -> (forall s, v <> JStr s) ->
  validate_optional_str (Some v) = None.
Proof.
  intros Hnull Hstr. destruct v; try reflexivity.
  - exfalso. apply Hnull. reflexivity.
  - exfalso. eapply Hstr. reflexivity.
Qed.

(** C7, as the code has it: the title is required to be a string.  A body
    without a title, or with a title that is not a JSON string, is answered
    with a validation error (422) and the world is untouched.  A title that
    is a string of any length, the empty one included, is accepted: when the
    optional fields author, cover_image and description are each absent, null
    or a string, the story is stored under that title.  A body with an
    optional field of any other type is answered with the same validation
    error and the world is untouched. *)
Theorem story_title_required_string (body : gmap string json) (w : World) :
  (body !! "title" = None ->
     route_create_story body w = (inl RequestValidationError, w))
  /\
  (forall v, body !! "title" = Some v -> (forall s, v <> JStr s) ->
     route_create_story body w = (inl RequestValidationError, w))
  /\
  is_client_error (status_of_exn RequestValidationError) = true
  /\
  (forall s a c d,
     body !! "title" = Some (JStr s) ->
     optional_str_field (body !! "author") a ->
     optional_str_field (body !! "cover_image") c ->
     optional_str_field (body !! "description") d ->
     route_create_story body w
     = (inr (ObjectId_str (ObjectId_new (map s_id (story (db w))))),
        {| db := {| story := story (db w)
                      ++ [{| s_id := ObjectId_new (map s_id (story (db w)));
                             s_title := s; s_author := a;
                             s_cover_image := c; s_description := d |}];
                    chapter := chapter (db w);
                    bubble := bubble (db w) |};
           log := log w ++ [op_insert_one c_story] |}))
  /\
  (forall k v,
     k = "author" \/ k = "cover_image" \/ k = "description" ->
     body !! k = Some v -> v <> JNull -> (forall s, v <> JStr s) ->
     route_create_story body w = (inl RequestValidationError, w)).
Proof.
  split; [|split; [|split; [|split]]].
  - intros Hnone. apply route_create_story_rejects. rewrite Hnone.
    reflexivity.
  - intros v Hv Hns. apply route_create_story_rejects. rewrite Hv.
    destruct v; try reflexivity. exfalso. eapply Hns. reflexivity.
  - reflexivity.
  - intros s a c d Ht Ha Hc Hd.
    unfold route_create_story, StoryCreate_validate.
    rewrite Ht, (validate_optional_str_field _ _ Ha),
      (validate_optional_str_field _ _ Hc),
      (validate_optional_str_field _ _ Hd).
    reflexivity.
  - intros k v Hk Hv Hnull Hstr.
    pose proof (validate_optional_str_other v Hnull Hstr) as Hbad.
    unfold route_create_story, StoryCreate_validate.
    destruct (validate_str (body !! "title")) as [t|]; [|reflexivity].
    destruct Hk as [-> | [-> | ->]]; rewrite Hv in *.
    + rewrite Hbad. reflexivity.
    + destruct (validate_optional_str (body !! "author")); [|reflexivity].
      rewrite Hbad. reflexivity.
    + destruct (validate_optional_str (body !! "author")); [|reflexivity].
      destruct (validate_optional_str (body !! "cover_image"));
        [|reflexivity].
      rewrite Hbad. reflexivity.
Qed.

(* --------------------------------------------------------------------- *)
(** *** Negative order *)

(** A negative [order] never reaches the insert: whatever the parent id, the
    database is left as it was. *)
Lemma create_chapter_negative_order_no_write (p : ChapterCreate) (w : World) :
  cc_order p < 0 -> db (snd (create_chapter p w)) = db w.
Proof.
  intros Hneg. destruct (ObjectId_parse (cc_story_id p)) as [oid|] eqn:Hoid.
  - rewrite (create_chapter_parsed _ _ _ Hoid).
    destruct (Nat.eqb _ 0); [reflexivity|].
    destruct (Z.leb_spec 0 (cc_order p)); [lia|reflexivity].
  - unfold create_chapter, ObjectId_is_valid. rewrite Hoid. reflexivity.
Qed.

Lemma create_bubble_negative_order_no_write (p : BubbleCreate) (w : World) :
  bc_order p < 0 -> db (snd (create_bubble p w)) = db w.
Proof.
  intros Hneg. destruct (ObjectId_parse (bc_chapter_id p)) as [oid|] eqn:Hoid.
  - rewrite (create_bubble_parsed _ _ _ Hoid).
    destruct (Nat.eqb _ 0); [reflexivity|].
    destruct (Z.leb_spec 0 (bc_order p)); [lia|reflexivity].
  - unfold create_bubble, ObjectId_is_valid. rewrite Hoid. reflexivity.
Qed.

(** With an existing parent, a negative [order] is detected only after the
    parent count has been issued, by the schema inside the handler. *)
Lemma create_chapter_negative_order_late (p : ChapterCreate) (w : World)
      (d : StoryDoc) :
  In d (story (db w)) ->
  ObjectId_parse (cc_story_id p) = Some (s_id d) ->
  cc_order p < 0 ->
  create_chapter p w
  = (inl (Unhandled "pydantic.ValidationError"),
     {| db := db w; log := log w ++ [op_count_documents c_story] |}).
Proof.
  intros Hd Hoid Hneg. rewrite (create_chapter_parsed _ _ _ Hoid).
  assert (Hz : Nat.eqb (length (List.filter
                 (fun x => ObjectId_eqb (s_id x) (s_id d)) (story (db w)))) 0
               = false).
  { apply count_nonzero_iff. exists d. split; [exact Hd|].
    apply ObjectId_eqb_spec. reflexivity. }
  rewrite Hz. destruct (Z.leb_spec 0 (cc_order p)); [lia|reflexivity].
Qed.

Lemma create_bubble_negative_order_late (p : BubbleCreate) (w : World)
      (d : ChapterDoc) :
  In d (chapter (db w)) ->
  ObjectId_parse (bc_chapter_id p) = Some (ch_id d) ->
  bc_order p < 0 ->
  create_bubble p w
  = (inl (Unhandled "pydantic.ValidationError"),
     {| db := db w; log := log w ++ [op_count_documents c_chapter] |}).
Proof.
  intros Hd Hoid Hneg. rewrite (create_bubble_parsed _ _ _ Hoid).
  assert (Hz : Nat.eqb (length (List.filter
                 (fun x => ObjectId_eqb (ch_id x) (ch_id d)) (chapter (db w)))) 0
               = false).
  { apply count_nonzero_iff. exists d. split; [exact Hd|].
    apply ObjectId_eqb_spec. reflexivity. }
  rewrite Hz. destruct (Z.leb_spec 0 (bc_order p)); [lia|reflexivity].
Qed.

(* --------------------------------------------------------------------- *)
(** *** Identities stay unique *)

Lemma NoDup_snoc {A : Type} (l : list A) (x : A) :
  List.NoDup l -> ~ In x l -> List.NoDup (l ++ [x]).
Proof.
  induction 1 as [|y l Hy Hnd IH]; intros Hx; cbn [app].
  - constructor; [intros []|constructor].
  - constructor.
    + rewrite in_app_iff. intros [Hin|[<-|[]]].
      * exact (Hy Hin).
      * apply Hx. left. reflexivity.
    + apply IH. intros Hin. apply Hx. right. exact Hin.
Qed.

Lemma create_story_ids_unique (p : StoryCreate) (w : World) :
  ids_unique (db w) -> ids_unique (db (snd (create_story p w))).
Proof.
  intros (Hs & Hc & Hb). unfold ids_unique. cbn.
  split; [|split; assumption].
  rewrite map_app. cbn. apply NoDup_snoc; [exact Hs|].
  apply ObjectId_new_fresh.
Qed.

Lemma create_chapter_ids_unique (p : ChapterCreate) (w : World) :
  ids_unique (db w) -> ids_unique (db (snd (create_chapter p w))).
Proof.
  intros Hu. destruct (ObjectId_parse (cc_story_id p)) as [oid|] eqn:Hoid.
  - rewrite (create_chapter_parsed _ _ _ Hoid).
    destruct (Nat.eqb _ 0); [exact Hu|].
    destruct (0 <=? cc_order p); [|exact Hu].
    destruct Hu as (Hs & Hc & Hb). unfold ids_unique. cbn.
    split; [exact Hs|]. split; [|exact Hb].
    rewrite map_app. cbn. apply NoDup_snoc; [exact Hc|].
    apply ObjectId_new_fresh.
  - unfold create_chapter, ObjectId_is_valid. rewrite Hoid. exact Hu.
Qed.

Lemma create_bubble_ids_unique (p : BubbleCreate) (w : World) :
  ids_unique (db w) -> ids_unique (db (snd (create_bubble p w))).
Proof.
  intros Hu. destruct (ObjectId_parse (bc_chapter_id p)) as [oid|] eqn:Hoid.
  - rewrite (create_bubble_parsed _ _ _ Hoid).
    destruct (Nat.eqb _ 0); [exact Hu|].
    destruct (0 <=? bc_order p); [|exact Hu].
    destruct Hu as (Hs & Hc & Hb). unfold ids_unique. cbn.
    split; [exact Hs|]. split; [exact Hc|].
    rewrite map_app. cbn. apply NoDup_snoc; [exact Hb|].
    apply ObjectId_new_fresh.
  - unfold create_bubble, ObjectId_is_valid. rewrite Hoid. exact Hu.
Qed.

(* --------------------------------------------------------------------- *)
(** *** When the handlers succeed *)

Lemma get_story_detail_invalid (story_id : string) (w : World) :
  ObjectId_parse story_id = None ->
  get_story_detail story_id w
  = (inl (HTTPException 400 "Invalid story id"), w).
Proof.
  intros Hoid. unfold get_story_detail, ObjectId_is_valid. rewrite Hoid.
  reflexivity.
Qed.

Lemma get_story_detail_missing (story_id : string) (w : World)
      (oid : ObjectId) :
  ObjectId_parse story_id = Some oid ->
  List.find (fun d => ObjectId_eqb (s_id d) oid) (story (db w)) = None ->
  get_story_detail story_id w
  = (inl (HTTPException 404 "Story not found"),
     {| db := db w; log := log w ++ [op_find_one c_story] |}).
Proof.
  intros Hoid Hfind.
  unfold get_story_detail, ObjectId_is_valid, ObjectId_ctor.
  rewrite Hoid. cbn [negb]. unfold bind, ret, find_one_story.
  rewrite Hfind. reflexivity.
Qed.

(** X1: the detail fetch succeeds exactly when the id string parses to the
    identity of a stored story. *)
Theorem get_story_detail_succeeds_iff (story_id : string) (w : World) :
  (exists detail w', get_story_detail story_id w = (inr detail, w'))
  <->
  (exists st, In st (story (db w)) /\
              ObjectId_parse story_id = Some (s_id st)).
Proof.
  split.
  - intros (detail & w' & Hrun).
    destruct (get_story_detail_inv _ _ _ _ Hrun) as (oid & st & Hoid & Hf & _).
    apply find_some in Hf as [Hin Heq]. apply ObjectId_eqb_spec in Heq.
    exists st. split; [exact Hin|]. rewrite Heq. exact Hoid.
  - intros (st & Hin & Hoid).
    destruct (find_some_first (fun d => ObjectId_eqb (s_id d) (s_id st))
                              (story (db w)) st Hin) as [st' Hfind].
    { apply ObjectId_eqb_spec. reflexivity. }
    eexists _, _. apply (get_story_detail_found _ _ _ _ Hoid Hfind).
Qed.

(** X2: when [create_chapter] returns an id, the story id of the payload
    parses to the identity of a stored story, the order of the payload is not
    negative, and the database differs from the former one by exactly one
    appended chapter: it carries an identity that no former chapter has and
    whose string form is the returned id, and the story id, title and order
    of the payload.  The store operations issued are the parent count and
    then the insert. *)
Theorem create_chapter_success_stores_payload (p : ChapterCreate)
        (w w' : World) (id : string) :
  create_chapter p w = (inr id, w') ->
  (exists d, In d (story (db w)) /\
             ObjectId_parse (cc_story_id p) = Some (s_id d)) /\
  0 <= cc_order p /\
  exists o,
    id = ObjectId_str o /\
    (forall c, In c (chapter (db w)) -> ch_id c <> o) /\
    db w' = {| story := story (db w);
               chapter := chapter (db w)
                 ++ [{| ch_id := o; ch_story_id := cc_story_id p;
                        ch_title := cc_title p;
                        ch_order := Some (cc_order p) |}];
               bubble := bubble (db w) |} /\
    log w' = (log w ++ [op_count_documents c_story;
                        op_insert_one c_chapter])%list.
Proof.
  intros Hrun.
  destruct (ObjectId_parse (cc_story_id p)) as [oid|] eqn:Hoid.
  - rewrite (create_chapter_parsed _ _ _ Hoid) in Hrun.
    destruct (Nat.eqb _ 0) eqn:Hz; [discriminate|].
    destruct (Z.leb_spec 0 (cc_order p)) as [Hord|Hord]; [|discriminate].
    apply count_nonzero_iff in Hz as (d & Hd & Heq).
    apply ObjectId_eqb_spec in Heq. split; [|split; [exact Hord|]].
    + exists d. split; [exact Hd|]. rewrite Heq. reflexivity.
    + unfold create_document_chapter, log_op in Hrun.
      cbn [db log cs_story_id cs_title cs_order] in Hrun.
      injection Hrun as <- <-.
      exists (ObjectId_new (map ch_id (chapter (db w)))).
      split; [reflexivity|]. split; [|split].
      * intros c Hc Heq'.
        apply (ObjectId_new_fresh (map ch_id (chapter (db w)))).
        rewrite <- Heq'. apply in_map. exact Hc.
      * reflexivity.
      * cbn [log]. rewrite <- app_assoc. reflexivity.
  - exfalso. revert Hrun. unfold create_chapter, ObjectId_is_valid.
    rewrite Hoid. discriminate.
Qed.

(** X3: when [create_bubble] returns an id, the chapter id of the payload
    parses to the identity of a stored chapter, the order of the payload is
    not negative, and the database differs from the former one by exactly one
    appended bubble: it carries an identity that no former bubble has and
    whose string form is the returned id, and the chapter id, content and
    order of the payload.  The store operations issued are the parent count
    and then the insert. *)
Theorem create_bubble_success_stores_payload (p : BubbleCreate)
        (w w' : World) (id : string) :
  create_bubble p w = (inr id, w') ->
  (exists d, In d (chapter (db w)) /\
             ObjectId_parse (bc_chapter_id p) = Some (ch_id d)) /\
  0 <= bc_order p /\
  exists o,
    id = ObjectId_str o /\
    (forall b, In b (bubble (db w)) -> b_id b <> o) /\
    db w' = {| story := story (db w);
               chapter := chapter (db w);
               bubble := bubble (db w)
                 ++ [{| b_id := o; b_chapter_id := bc_chapter_id p;
                        b_content_html := bc_content_html p;
                        b_order := Some (bc_order p) |}] |} /\
    log w' = (log w ++ [op_count_documents c_chapter;
                        op_insert_one c_bubble])%list.
Proof.
  intros Hrun.
  destruct (ObjectId_parse (bc_chapter_id p)) as [oid|] eqn:Hoid.
  - rewrite (create_bubble_parsed _ _ _ Hoid) in Hrun.
    destruct (Nat.eqb _ 0) eqn:Hz; [discriminate|].
    destruct (Z.leb_spec 0 (bc_order p)) as [Hord|Hord]; [|discriminate].
    apply count_nonzero_iff in Hz as (d & Hd & Heq).
    apply ObjectId_eqb_spec in Heq. split; [|split; [exact Hord|]].
    + exists d. split; [exact Hd|]. rewrite Heq. reflexivity.
    + unfold create_document_bubble, log_op in Hrun.
      cbn [db log bs_chapter_id bs_content_html bs_order] in Hrun.
      injection Hrun as <- <-.
      exists (ObjectId_new (map b_id (bubble (db w)))).
      split; [reflexivity|]. split; [|split].
      * intros b Hb Heq'.
        apply (ObjectId_new_fresh (map b_id (bubble (db w)))).
        rewrite <- Heq'. apply in_map. exact Hb.
      * reflexivity.
      * cbn [log]. rewrite <- app_assoc. reflexivity.
  - exfalso. revert Hrun. unfold create_bubble, ObjectId_is_valid.
    rewrite Hoid. discriminate.
Qed.

(* --------------------------------------------------------------------- *)
(** *** The read handlers *)

Lemma list_stories_run (w : World) :
  list_stories w
  = (inr (map story_out (story (db w))),
     {| db := db w; log := log w ++ [op_find c_story] |}).
Proof. reflexivity. Qed.

Lemma Forall_repeat {A : Type} (P : A -> Prop) (x : A) (n : nat) :
  P x -> Forall P (repeat x n).
Proof. intros Hx. induction n; cbn [repeat]; constructor; assumption. Qed.

(** X4: the four read handlers leave the database exactly as it was, whatever
    the input and the outcome, and none of the store operations they issue
    is an insert. *)
Theorem reads_leave_database (w : World) :
  (db (snd (list_stories w)) = db w /\
   exists ops, log (snd (list_stories w)) = (log w ++ ops)%list /\
               Forall (fun o => is_insert o = false) ops)
  /\
  (forall story_id,
     db (snd (list_chapters story_id w)) = db w /\
     exists ops, log (snd (list_chapters story_id w)) = (log w ++ ops)%list /\
                 Forall (fun o => is_insert o = false) ops)
  /\
  (forall chapter_id,
     db (snd (list_bubbles chapter_id w)) = db w /\
     exists ops, log (snd (list_bubbles chapter_id w)) = (log w ++ ops)%list /\
                 Forall (fun o => is_insert o = false) ops)
  /\
  (forall story_id,
     db (snd (get_story_detail story_id w)) = db w /\
     exists ops, log (snd (get_story_detail story_id w)) = (log w ++ ops)%list /\
                 Forall (fun o => is_insert o = false) ops).
Proof.
  split; [|split; [|split]].
  - rewrite list_stories_run. split; [reflexivity|].
    exists [op_find c_story]. split; [reflexivity|]. repeat constructor.
  - intros story_id. rewrite list_chapters_run. split; [reflexivity|].
    exists [op_find c_chapter]. split; [reflexivity|]. repeat constructor.
  - intros chapter_id. rewrite list_bubbles_run. split; [reflexivity|].
    exists [op_find c_bubble]. split; [reflexivity|]. repeat constructor.
  - intros story_id.
    destruct (ObjectId_parse story_id) as [oid|] eqn:Hoid.
    + destruct (List.find (fun d => ObjectId_eqb (s_id d) oid) (story (db w)))
        as [st|] eqn:Hfind.
      * rewrite (get_story_detail_found _ _ _ _ Hoid Hfind).
        split; [reflexivity|]. eexists. split; [reflexivity|].
        constructor; [reflexivity|]. constructor; [reflexivity|].
        apply Forall_repeat. reflexivity.
      * rewrite (get_story_detail_missing _ _ _ Hoid Hfind).
        split; [reflexivity|]. exists [op_find_one c_story].
        split; [reflexivity|]. repeat constructor.
    + rewrite (get_story_detail_invalid _ _ Hoid). split; [reflexivity|].
      exists []. split; [symmetry; apply app_nil_r|]. constructor.
Qed.

(** X5: a successful detail fetch costs one story lookup, one chapter query and
    one bubble query for each chapter entry it returns. *)
Theorem get_story_detail_query_count (story_id : string) (w w' : World)
        (detail : StoryDetail) :
  get_story_detail story_id w = (inr detail, w') ->
  log w' = (log w ++ [op_find_one c_story; op_find c_chapter]
                  ++ repeat (op_find c_bubble)
                            (length (sd_chapters detail)))%list.
Proof.
  intros Hrun.
  destruct (get_story_detail_inv _ _ _ _ Hrun) as (oid & st & Hoid & Hf & ->).
  rewrite (get_story_detail_found _ _ _ _ Hoid Hf) in Hrun.
  injection Hrun as <-. cbn [log story_detail_of sd_chapters].
  rewrite length_map, (Permutation_length (cursor_sort_perm _ _ _)).
  reflexivity.
Qed.

(* --------------------------------------------------------------------- *)
(** *** Create, then read *)

Lemma create_story_run (p : StoryCreate) (w : World) :
  create_story p w
  = (inr (ObjectId_str (ObjectId_new (map s_id (story (db w))))),
     {| db := {| story := story (db w)
                   ++ [{| s_id := ObjectId_new (map s_id (story (db w)));
                          s_title := sc_title p; s_author := sc_author p;
                          s_cover_image := sc_cover_image p;
                          s_description := sc_description p |}];
                 chapter := chapter (db w);
                 bubble := bubble (db w) |};
        log := log w ++ [op_insert_one c_story] |}).
Proof. reflexivity. Qed.

Lemma find_app_skip {A : Type} (p : A -> bool) (l l' : list A) :
  (forall x, In x l -> p x = false) ->
  List.find p (l ++ l') = List.find p l'.
Proof.
  induction l as [|y l IH]; intros Hl; cbn [app List.find].
  - reflexivity.
  - rewrite (Hl y (or_introl eq_refl)). apply IH.
    intros x Hx. apply Hl. right. exact Hx.
Qed.


(** X7: after [create_story], fetching the detail under the returned id answers
    with that id and the fields of the payload, provided the identity format
    reads back what it prints; the chapter list is empty unless some stored
    chapter already carries that id string. *)
Theorem create_story_then_detail (p : StoryCreate) (w : World) :
  ObjectId_parse (ObjectId_str (ObjectId_new (map s_id (story (db w)))))
  = Some (ObjectId_new (map s_id (story (db w)))) ->
  exists id w1 detail w2,
    create_story p w = (inr id, w1) /\
    get_story_detail id w1 = (inr detail, w2) /\
    sd_id detail = id /\
    sd_title detail = sc_title p /\
    sd_author detail = sc_author p /\
    sd_cover_image detail = sc_cover_image p /\
    sd_description detail = sc_description p /\
    ((forall c, In c (chapter (db w)) -> ch_story_id c <> id) ->
     sd_chapters detail = []).
Proof.
  intros Hround. eexists _, _, _, _. split; [apply create_story_run|].
  split.
  - eapply get_story_detail_found; [exact Hround|]. cbn [db story].
    rewrite find_app_skip.
    + cbn [List.find s_id].
      replace (ObjectId_eqb _ _) with true; [reflexivity|].
      symmetry. apply ObjectId_eqb_spec. reflexivity.
    + intros d0 Hd0. apply ObjectId_eqb_false. intros Heq.
      apply (ObjectId_new_fresh (map s_id (story (db w)))).
      rewrite <- Heq. apply in_map. exact Hd0.
  - cbn [story_detail_of sd_id sd_title sd_author sd_cover_image
         sd_description sd_chapters s_id s_title s_author s_cover_image
         s_description].
    repeat (split; [reflexivity|]).
    intros Hnone.
    assert (E : chapters_of
                  (ObjectId_str (ObjectId_new (map s_id (story (db w)))))
                  (db w) = []).
    { apply filter_nil_iff. intros c Hc. apply String.eqb_neq, Hnone, Hc. }
    unfold chapters_of in *. cbn [db chapter]. rewrite E.
    assert (Hs : cursor_sort ch_order (@nil ChapterDoc) = []).
    { apply Permutation_nil. apply Permutation_sym, cursor_sort_perm. }
    rewrite Hs. reflexivity.
Qed.

Lemma chapters_of_snoc (story_id : string) (s : list StoryDoc)
      (cs : list ChapterDoc) (bs : list BubbleDoc) (c : ChapterDoc) :
  chapters_of story_id {| story := s; chapter := cs ++ [c]; bubble := bs |}
  = (chapters_of story_id {| story := s; chapter := cs; bubble := bs |}
     ++ if String.eqb (ch_story_id c) story_id then [c] else [])%list.
Proof.
  unfold chapters_of. cbn [chapter]. rewrite List.filter_app.
  cbn [List.filter]. destruct (String.eqb (ch_story_id c) story_id);
    reflexivity.
Qed.

Lemma bubbles_of_snoc (chapter_id : string) (s : list StoryDoc)
      (cs : list ChapterDoc) (bs : list BubbleDoc) (b : BubbleDoc) :
  bubbles_of chapter_id {| story := s; chapter := cs; bubble := bs ++ [b] |}
  = (bubbles_of chapter_id {| story := s; chapter := cs; bubble := bs |}
     ++ if String.eqb (b_chapter_id b) chapter_id then [b] else [])%list.
Proof.
  unfold bubbles_of. cbn [bubble]. rewrite List.filter_app.
  cbn [List.filter]. destruct (String.eqb (b_chapter_id b) chapter_id);
    reflexivity.
Qed.

Lemma db_eta (d : Db) :
  {| story := story d; chapter := chapter d; bubble := bubble d |} = d.
Proof. destruct d; reflexivity. Qed.

(** X8: after a successful [create_chapter], the chapter listing of the same
    story-id string is the former listing plus the view of the new chapter
    (returned id, title and order of the payload), and the listing of every
    other story-id string is what it was. *)
Theorem create_chapter_then_list (p : ChapterCreate) (w : World)
        (d : StoryDoc) :
  In d (story (db w)) ->
  ObjectId_parse (cc_story_id p) = Some (s_id d) ->
  0 <= cc_order p ->
  exists id w1 before after,
    create_chapter p w = (inr id, w1) /\
    fst (list_chapters (cc_story_id p) w) = inr before /\
    fst (list_chapters (cc_story_id p) w1) = inr after /\
    Permutation after
      ({| co_id := id; co_story_id := cc_story_id p;
          co_title := cc_title p; co_order := cc_order p |} :: before) /\
    (forall story_id, story_id <> cc_story_id p ->
       fst (list_chapters story_id w1) = fst (list_chapters story_id w)).
Proof.
  intros Hd Hoid Hord. eexists _, _, _, _.
  split; [apply (create_chapter_inserts _ _ _ Hd Hoid Hord)|].
  split; [reflexivity|]. split; [reflexivity|]. split.
  - cbn [db]. rewrite chapters_of_snoc. cbn [ch_story_id].
    rewrite String.eqb_refl, db_eta.
    set (new := {| ch_id := ObjectId_new (map ch_id (chapter (db w)));
                   ch_story_id := cc_story_id p; ch_title := cc_title p;
                   ch_order := Some (cc_order p) |}).
    change {| co_id := ObjectId_str (ObjectId_new (map ch_id (chapter (db w))));
              co_story_id := cc_story_id p; co_title := cc_title p;
              co_order := cc_order p |}
      with (chapter_out new).
    rewrite <- map_cons. apply Permutation_map.
    eapply perm_trans; [apply sorted_perm|].
    eapply perm_trans; [apply Permutation_sym, Permutation_cons_append|].
    apply perm_skip, Permutation_sym, sorted_perm.
  - intros story_id Hne. rewrite !list_chapters_run. cbn [fst db].
    rewrite chapters_of_snoc. cbn [ch_story_id].
    replace (String.eqb (cc_story_id p) story_id) with false.
    + rewrite app_nil_r, db_eta. reflexivity.
    + symmetry. apply String.eqb_neq. congruence.
Qed.

(** X9: the same for bubbles: after a successful [create_bubble] the bubble
    listing of that chapter-id string gains the view of the new bubble, and
    every other listing is what it was. *)
Theorem create_bubble_then_list (p : BubbleCreate) (w : World)
        (d : ChapterDoc) :
  In d (chapter (db w)) ->
  ObjectId_parse (bc_chapter_id p) = Some (ch_id d) ->
  0 <= bc_order p ->
  exists id w1 before after,
    create_bubble p w = (inr id, w1) /\
    fst (list_bubbles (bc_chapter_id p) w) = inr before /\
    fst (list_bubbles (bc_chapter_id p) w1) = inr after /\
    Permutation after
      ({| bo_id := id; bo_chapter_id := bc_chapter_id p;
          bo_content_html := bc_content_html p; bo_order := bc_order p |}
       :: before) /\
    (forall chapter_id, chapter_id <> bc_chapter_id p ->
       fst (list_bubbles chapter_id w1) = fst (list_bubbles chapter_id w)).
Proof.
  intros Hd Hoid Hord. eexists _, _, _, _.
  split; [apply (create_bubble_inserts _ _ _ Hd Hoid Hord)|].
  split; [reflexivity|]. split; [reflexivity|]. split.
  - cbn [db]. rewrite bubbles_of_snoc. cbn [b_chapter_id].
    rewrite String.eqb_refl, db_eta.
    set (new := {| b_id := ObjectId_new (map b_id (bubble (db w)));
                   b_chapter_id := bc_chapter_id p;
                   b_content_html := bc_content_html p;
                   b_order := Some (bc_order p) |}).
    change {| bo_id := ObjectId_str (ObjectId_new (map b_id (bubble (db w))));
              bo_chapter_id := bc_chapter_id p;
              bo_content_html := bc_content_html p;
              bo_order := bc_order p |}
      with (bubble_out new).
    rewrite <- map_cons. apply Permutation_map.
    eapply perm_trans; [apply sorted_perm|].
    eapply perm_trans; [apply Permutation_sym, Permutation_cons_append|].
    apply perm_skip, Permutation_sym, sorted_perm.
  - intros chapter_id Hne. rewrite !list_bubbles_run. cbn [fst db].
    rewrite bubbles_of_snoc. cbn [b_chapter_id].
    replace (String.eqb (bc_chapter_id p) chapter_id) with false.
    + rewrite app_nil_r, db_eta. reflexivity.
    + symmetry. apply String.eqb_neq. congruence.
Qed.


(** X11: after a successful [create_bubble], every detail fetch shows the new
    bubble (returned id, content and order of the payload) inside each
    chapter entry whose id is the chapter-id string of the payload. *)
Theorem create_bubble_then_detail (p : BubbleCreate) (w : World)
        (c : ChapterDoc) :
  In c (chapter (db w)) ->
  ObjectId_parse (bc_chapter_id p) = Some (ch_id c) ->
  0 <= bc_order p ->
  exists id w1,
    create_bubble p w = (inr id, w1) /\
    forall story_id detail w2 e,
      get_story_detail story_id w1 = (inr detail, w2) ->
      In e (sd_chapters detail) ->
      ce_id e = bc_chapter_id p ->
      In {| be_id := id; be_content_html := bc_content_html p;
            be_order := bc_order p |} (ce_bubbles e).
Proof.
  intros Hc Hoid Hord. eexists _, _.
  split; [apply (create_bubble_inserts _ _ _ Hc Hoid Hord)|].
  intros story_id detail w2 e Hrun He Hid.
  apply (detail_entry_inv _ _ _ _ _ Hrun) in He.
  destruct He as (ch & _ & _ & ->).
  cbn [chapter_entry_of ce_bubbles ce_id] in *.
  set (new := {| b_id := ObjectId_new (map b_id (bubble (db w)));
                 b_chapter_id := bc_chapter_id p;
                 b_content_html := bc_content_html p;
                 b_order := Some (bc_order p) |}).
  change {| be_id := ObjectId_str (ObjectId_new (map b_id (bubble (db w))));
            be_content_html := bc_content_html p; be_order := bc_order p |}
    with (bubble_entry new).
  apply in_map. apply cursor_sort_In, bubbles_of_In. split.
  - cbn [db bubble]. apply in_or_app. right. left. reflexivity.
  - symmetry. exact Hid.
Qed.

(* --------------------------------------------------------------------- *)
(** *** Invariants of the store *)

(** X12: the create handlers keep every stored child attached to a stored
    parent: what the parent check establishes for the new record is never
    undone for the old ones. *)
Theorem creates_keep_parents (w : World) :
  parents_exist (db w) ->
  (forall p, parents_exist (db (snd (create_story p w)))) /\
  (forall p, parents_exist (db (snd (create_chapter p w)))) /\
  (forall p, parents_exist (db (snd (create_bubble p w)))).
Proof.
  intros [Hch Hbu]. split; [|split].
  - intros p. rewrite create_story_run. cbn [snd db]. split.
    + intros c Hc. cbn [chapter] in Hc. destruct (Hch c Hc) as (s & Hs & E).
      exists s. split; [|exact E]. cbn [story]. apply in_or_app. left.
      exact Hs.
    + exact Hbu.
  - intros p. destruct (ObjectId_parse (cc_story_id p)) as [oid|] eqn:Hoid.
    + rewrite (create_chapter_parsed _ _ _ Hoid).
      destruct (Nat.eqb _ 0) eqn:Hz; [split; assumption|].
      destruct (0 <=? cc_order p); [|split; assumption].
      apply count_nonzero_iff in Hz as (d & Hd & Heq).
      apply ObjectId_eqb_spec in Heq.
      unfold create_document_chapter. cbn [snd db log_op]. split.
      * intros c Hc. cbn [chapter story] in *.
        apply in_app_or in Hc as [Hc|[<-|[]]].
        -- apply Hch, Hc.
        -- exists d. split; [exact Hd|]. cbn [ch_story_id cs_story_id].
           rewrite Heq. exact Hoid.
      * intros b Hb. cbn [bubble chapter] in *.
        destruct (Hbu b Hb) as (c & Hc & E). exists c.
        split; [|exact E]. apply in_or_app. left. exact Hc.
    + unfold create_chapter, ObjectId_is_valid. rewrite Hoid.
      split; assumption.
  - intros p. destruct (ObjectId_parse (bc_chapter_id p)) as [oid|] eqn:Hoid.
    + rewrite (create_bubble_parsed _ _ _ Hoid).
      destruct (Nat.eqb _ 0) eqn:Hz; [split; assumption|].
      destruct (0 <=? bc_order p); [|split; assumption].
      apply count_nonzero_iff in Hz as (d & Hd & Heq).
      apply ObjectId_eqb_spec in Heq.
      unfold create_document_bubble. cbn [snd db log_op]. split.
      * exact Hch.
      * intros b Hb. cbn [bubble chapter] in *.
        apply in_app_or in Hb as [Hb|[<-|[]]].
        -- apply Hbu, Hb.
        -- exists d. split; [exact Hd|]. cbn [b_chapter_id bs_chapter_id].
           rewrite Heq. exact Hoid.
    + unfold create_bubble, ObjectId_is_valid. rewrite Hoid.
      split; assumption.
Qed.

(** X13: the create handlers never store a negative order: a store without one
    stays without one. *)
Theorem creates_keep_orders_nonnegative (w : World) :
  no_negative_order (db w) ->
  (forall p, no_negative_order (db (snd (create_story p w)))) /\
  (forall p, no_negative_order (db (snd (create_chapter p w)))) /\
  (forall p, no_negative_order (db (snd (create_bubble p w)))).
Proof.
  intros [Hch Hbu]. split; [|split].
  - intros p. rewrite create_story_run. split; assumption.
  - intros p. destruct (ObjectId_parse (cc_story_id p)) as [oid|] eqn:Hoid.
    + rewrite (create_chapter_parsed _ _ _ Hoid).
      destruct (Nat.eqb _ 0); [split; assumption|].
      destruct (Z.leb_spec 0 (cc_order p)) as [Hord|Hord];
        [|split; assumption].
      unfold create_document_chapter. cbn [snd db log_op]. split.
      * intros c z Hc Hz. cbn [chapter] in Hc.
        apply in_app_or in Hc as [Hc|[<-|[]]].
        -- exact (Hch c z Hc Hz).
        -- cbn [ch_order cs_order] in Hz. injection Hz as <-. exact Hord.
      * exact Hbu.
    + unfold create_chapter, ObjectId_is_valid. rewrite Hoid.
      split; assumption.
  - intros p. destruct (ObjectId_parse (bc_chapter_id p)) as [oid|] eqn:Hoid.
    + rewrite (create_bubble_parsed _ _ _ Hoid).
      destruct (Nat.eqb _ 0); [split; assumption|].
      destruct (Z.leb_spec 0 (bc_order p)) as [Hord|Hord];
        [|split; assumption].
      unfold create_document_bubble. cbn [snd db log_op]. split.
      * exact Hch.
      * intros b z Hb Hz. cbn [bubble] in Hb.
        apply in_app_or in Hb as [Hb|[<-|[]]].
        -- exact (Hbu b z Hb Hz).
        -- cbn [b_order bs_order] in Hz. injection Hz as <-. exact Hord.
    + unfold create_bubble, ObjectId_is_valid. rewrite Hoid.
      split; assumption.
Qed.

(** X14: the create handlers only append: every record stored before is still
    there afterwards, unchanged and at the same place; [create_story] touches
    only the story collection, [create_chapter] only the chapter collection
    and [create_bubble] only the bubble collection, each by at most one
    record. *)
Theorem creates_only_append (w : World) :
  (forall p,
     db_extends (db w) (db (snd (create_story p w))) /\
     chapter (db (snd (create_story p w))) = chapter (db w) /\
     bubble (db (snd (create_story p w))) = bubble (db w) /\
     length (story (db (snd (create_story p w))))
     = S (length (story (db w))))
  /\
  (forall p,
     db_extends (db w) (db (snd (create_chapter p w))) /\
     story (db (snd (create_chapter p w))) = story (db w) /\
     bubble (db (snd (create_chapter p w))) = bubble (db w) /\
     (length (chapter (db (snd (create_chapter p w))))
      <= S (length (chapter (db w))))%nat)
  /\
  (forall p,
     db_extends (db w) (db (snd (create_bubble p w))) /\
     story (db (snd (create_bubble p w))) = story (db w) /\
     chapter (db (snd (create_bubble p w))) = chapter (db w) /\
     (length (bubble (db (snd (create_bubble p w))))
      <= S (length (bubble (db w))))%nat).
Proof.
  assert (Hrefl : forall d, db_extends d d).
  { intros d. repeat split; exists []; symmetry; apply app_nil_r. }
  split; [|split].
  - intros p. rewrite create_story_run. cbn [snd db story chapter bubble].
    split; [|split; [reflexivity|split; [reflexivity|]]].
    + split; [|split]; cbn [story chapter bubble].
      * eexists. reflexivity.
      * exists []. symmetry. apply app_nil_r.
      * exists []. symmetry. apply app_nil_r.
    + rewrite length_app. cbn [length]. lia.
  - intros p. destruct (ObjectId_parse (cc_story_id p)) as [oid|] eqn:Hoid.
    + rewrite (create_chapter_parsed _ _ _ Hoid).
      destruct (Nat.eqb _ 0);
        [split; [apply Hrefl|]; cbn [snd log_op db]; repeat split; lia|].
      destruct (0 <=? cc_order p);
        [|split; [apply Hrefl|]; cbn [snd log_op db]; repeat split; lia].
      unfold create_document_chapter.
      cbn [snd db log_op story chapter bubble].
      split; [|split; [reflexivity|split; [reflexivity|]]].
      * split; [|split]; cbn [story chapter bubble].
        -- exists []. symmetry. apply app_nil_r.
        -- eexists. reflexivity.
        -- exists []. symmetry. apply app_nil_r.
      * rewrite length_app. cbn [length]. lia.
    + unfold create_chapter, ObjectId_is_valid. rewrite Hoid.
      cbn [negb raise snd]. split; [apply Hrefl|]. repeat split; lia.
  - intros p. destruct (ObjectId_parse (bc_chapter_id p)) as [oid|] eqn:Hoid.
    + rewrite (create_bubble_parsed _ _ _ Hoid).
      destruct (Nat.eqb _ 0);
        [split; [apply Hrefl|]; cbn [snd log_op db]; repeat split; lia|].
      destruct (0 <=? bc_order p);
        [|split; [apply Hrefl|]; cbn [snd log_op db]; repeat split; lia].
      unfold create_document_bubble.
      cbn [snd db log_op story chapter bubble].
      split; [|split; [reflexivity|split; [reflexivity|]]].
      * split; [|split]; cbn [story chapter bubble].
        -- exists []. symmetry. apply app_nil_r.
        -- exists []. symmetry. apply app_nil_r.
        -- eexists. reflexivity.
      * rewrite length_app. cbn [length]. lia.
    + unfold create_bubble, ObjectId_is_valid. rewrite Hoid.
      cbn [negb raise snd]. split; [apply Hrefl|]. repeat split; lia.
Qed.

(* --------------------------------------------------------------------- *)
(** *** The order of the detail view *)

Lemma StronglySorted_weaken {A : Type} (R R' : A -> A -> Prop) (l : list A) :
  StronglySorted R l ->
  (forall x y, In x l -> In y l -> R x y -> R' x y) ->
  StronglySorted R' l.
Proof.
  induction 1 as [|a l Hs IH Hall]; intros Himp; constructor.
  - apply IH. intros x y Hx Hy. apply Himp; right; assumption.
  - rewrite List.Forall_forall in *. intros y Hy.
    apply Himp; [left; reflexivity|right; exact Hy|]. apply Hall, Hy.
Qed.

Lemma bson_leb_get_order (a b : option Z) :
  (forall z, a = Some z -> 0 <= z) ->
  (forall z, b = Some z -> 0 <= z) ->
  bson_leb a b = true -> get_order a <= get_order b.
Proof.
  destruct a as [x|], b as [y|]; cbn; intros Ha Hb Hle.
  - apply Z.leb_le. exact Hle.
  - discriminate.
  - apply Hb. reflexivity.
  - lia.
Qed.

Lemma cursor_sort_by_get_order {A : Type} (key : A -> option Z)
      (l : list A) :
  (forall x z, In x l -> key x = Some z -> 0 <= z) ->
  StronglySorted (fun a b => get_order (key a) <= get_order (key b))
                 (cursor_sort key l).
Proof.
  intros Hnn.
  apply (StronglySorted_weaken _ _ _ (cursor_sort_sorted A key l)).
  intros x y Hx Hy. apply cursor_sort_In in Hx, Hy.
  apply bson_leb_get_order; intros z; apply Hnn; assumption.
Qed.

(** X15: in a store without negative orders, a successful detail fetch lists the
    chapter entries in non-decreasing [order], and inside every chapter
    entry the bubbles in non-decreasing [order], a missing order counting as
    the 0 it is shown as. *)
Theorem get_story_detail_sorted (story_id : string) (w w' : World)
        (detail : StoryDetail) :
  no_negative_order (db w) ->
  get_story_detail story_id w = (inr detail, w') ->
  StronglySorted (fun a b => ce_order a <= ce_order b) (sd_chapters detail)
  /\
  Forall (fun e => StronglySorted (fun a b => be_order a <= be_order b)
                                  (ce_bubbles e))
         (sd_chapters detail).
Proof.
  intros [Hch Hbu] Hrun.
  destruct (get_story_detail_inv _ _ _ _ Hrun) as (oid & st & _ & _ & ->).
  cbn [story_detail_of sd_chapters]. split.
  - apply StronglySorted_map. cbn [chapter_entry_of ce_order].
    apply cursor_sort_by_get_order. intros c z Hc.
    apply chapters_of_In in Hc as [Hc _]. apply Hch, Hc.
  - apply List.Forall_map, List.Forall_forall. intros ch _.
    cbn [chapter_entry_of ce_bubbles]. apply StronglySorted_map.
    cbn [bubble_entry be_order]. apply cursor_sort_by_get_order.
    intros b z Hb. apply bubbles_of_In in Hb as [Hb _]. apply Hbu, Hb.
Qed.

(** X16: the detail view and the listings show the same children: the chapter
    entries of a successful detail fetch are, up to their arrangement, the
    chapters listed for the same story-id string, and the bubbles nested in
    an entry are, up to their arrangement, the bubbles listed for that
    entry's id. *)
Theorem get_story_detail_agrees_with_listings (story_id : string)
        (w w' : World) (detail : StoryDetail) :
  get_story_detail story_id w = (inr detail, w') ->
  (exists out,
     fst (list_chapters story_id w) = inr out /\
     Permutation
       (map (fun e => (ce_id e, ce_title e, ce_order e)) (sd_chapters detail))
       (map (fun o => (co_id o, co_title o, co_order o)) out))
  /\
  (forall e, In e (sd_chapters detail) ->
     exists out,
       fst (list_bubbles (ce_id e) w) = inr out /\
       Permutation
         (map (fun b => (be_id b, be_content_html b, be_order b))
              (ce_bubbles e))
         (map (fun o => (bo_id o, bo_content_html o, bo_order o)) out)).
Proof.
  intros Hrun. split.
  - destruct (get_story_detail_inv _ _ _ _ Hrun) as (oid & st & _ & _ & ->).
    eexists. rewrite list_chapters_run. split; [reflexivity|].
    cbn [story_detail_of sd_chapters]. rewrite !map_map.
    cbn [chapter_entry_of chapter_out ce_id ce_title ce_order
         co_id co_title co_order].
    apply Permutation_map.
    eapply perm_trans; [apply cursor_sort_perm|].
    apply Permutation_sym, sorted_perm.
  - intros e He. apply (detail_entry_inv _ _ _ _ _ Hrun) in He.
    destruct He as (ch & _ & _ & ->).
    eexists. rewrite list_bubbles_run. split; [reflexivity|].
    cbn [chapter_entry_of ce_bubbles ce_id]. rewrite !map_map.
    cbn [bubble_entry bubble_out be_id be_content_html be_order
         bo_id bo_content_html bo_order].
    apply Permutation_map.
    eapply perm_trans; [apply cursor_sort_perm|].
    apply Permutation_sym, sorted_perm.
Qed.

End Properties.

(** The identity format on sample strings: 24 hexadecimal digits in either
    case give 12 bytes; whitespace in front of a byte is skipped, which
    leaves fewer bytes; whitespace inside a byte and other characters are
    rejected, as is any other length. *)
Example hex24_parse_samples :
  hex24_parse id1 = Some (oid12 1)
  /\ hex24_parse "00000000000000000000000A" = Some (oid12 10)
  /\ hex24_parse "00000000000000000000000a" = Some (oid12 10)
  /\ hex24_parse "0000000000000000000001  " = Some (11%nat, 1%N)
  /\ hex24_parse "0 0000000000000000000001" = None
  /\ hex24_parse "not-an-id" = None
  /\ hex24_parse "00000000000000000000000g" = None
  /\ hex24_str (oid12 10) = "00000000000000000000000a".
Proof. repeat split. Qed.

(* ===================================================================== *)
(** ** The handlers on concrete requests *)
(* ===================================================================== *)

(** The example of the specification: the detail of S1 lists the chapters
    as C2, C1; the bubbles of C1 are B1 and C2 has none. *)
Example spec_example_detail :
  fst spec_example
  = inr {| sd_id := id1; sd_title := "A"; sd_author := None;
           sd_cover_image := None; sd_description := None;
           sd_chapters :=
             [{| ce_id := id2; ce_title := "C2"; ce_order := 0;
                 ce_bubbles := [] |};
              {| ce_id := id1; ce_title := "C1"; ce_order := 1;
                 ce_bubbles :=
                   [{| be_id := id1; be_content_html := "<p>x</p>";
                       be_order := 0 |}] |}] |}
  /\ db (snd spec_example) = db w_spec.
Proof. split; reflexivity. Qed.

Lemma get_story_detail_errors_witness :
  (get_story_detail "not-an-id" w_spec
   = (inl (HTTPException 400 "Invalid story id"), w_spec)
   /\ is_client_error (status_of (fst (get_story_detail "not-an-id" w_spec)))
      = true
   /\ is_server_error (status_of (fst (get_story_detail "not-an-id" w_spec)))
      = false)
  /\
  (get_story_detail id9 w_spec
   = (inl (HTTPException 404 "Story not found"),
      {| db := db w_spec; log := log w_spec ++ [op_find_one c_story] |})
   /\ is_client_error (status_of (fst (get_story_detail id9 w_spec))) = true
   /\ is_server_error (status_of (fst (get_story_detail id9 w_spec))) = false).
Proof.
  split.
  - apply (proj1 (get_story_detail_errors "not-an-id" w_spec)).
    reflexivity.
  - apply (proj2 (get_story_detail_errors id9 w_spec)).
    + reflexivity.
    + intros d [<-|[]]. discriminate.
Defined.

Lemma create_child_checks_parent_witness :
  create_chapter {| cc_story_id := "not-an-id"; cc_title := "C3";
                    cc_order := 2 |} w_spec
  = (inl (HTTPException 400 "Invalid story id"), w_spec)
  /\
  create_chapter {| cc_story_id := id9; cc_title := "C3"; cc_order := 2 |}
                 w_spec
  = (inl (HTTPException 404 "Parent story not found"),
     {| db := db w_spec; log := log w_spec ++ [op_count_documents c_story] |})
  /\
  (exists d, In d (story (db w_spec)) /\
             ObjectId_parse id1 = Some (s_id d))
  /\
  create_bubble {| bc_chapter_id := "not-an-id"; bc_content_html := "<p>y</p>";
                   bc_order := 2 |} w_spec
  = (inl (HTTPException 400 "Invalid chapter id"), w_spec)
  /\
  create_bubble {| bc_chapter_id := id9; bc_content_html := "<p>y</p>";
                   bc_order := 2 |} w_spec
  = (inl (HTTPException 404 "Parent chapter not found"),
     {| db := db w_spec; log := log w_spec ++ [op_count_documents c_chapter] |})
  /\
  (exists d, In d (chapter (db w_spec)) /\
             ObjectId_parse id2 = Some (ch_id d)).
Proof.
  destruct (create_child_checks_parent w_spec) as [Hch Hbu].
  split; [|split; [|split; [|split; [|split]]]].
  - apply (proj1 (Hch {| cc_story_id := "not-an-id"; cc_title := "C3";
                         cc_order := 2 |})).
    reflexivity.
  - apply (proj1 (proj2 (Hch {| cc_story_id := id9; cc_title := "C3";
                                cc_order := 2 |}))).
    + reflexivity.
    + intros d [<-|[]]. discriminate.
  - apply (proj2 (proj2 (Hch {| cc_story_id := id1; cc_title := "C3";
                                cc_order := 2 |}))).
    intros Heq. apply (f_equal (fun d => length (chapter d))) in Heq.
    discriminate Heq.
  - apply (proj1 (Hbu {| bc_chapter_id := "not-an-id";
                         bc_content_html := "<p>y</p>"; bc_order := 2 |})).
    reflexivity.
  - apply (proj1 (proj2 (Hbu {| bc_chapter_id := id9;
                                bc_content_html := "<p>y</p>";
                                bc_order := 2 |}))).
    + reflexivity.
    + intros d [<-|[<-|[]]]; discriminate.
  - apply (proj2 (proj2 (Hbu {| bc_chapter_id := id2;
                                bc_content_html := "<p>y</p>";
                                bc_order := 2 |}))).
    intros Heq. apply (f_equal (fun d => length (bubble d))) in Heq.
    discriminate Heq.
Defined.

(** The chapter listing of the example store: C2 (order 0) before C1
    (order 1), each with its own id, story id, title and order. *)
Example list_chapters_spec_example :
  fst (list_chapters id1 w_spec)
  = inr [{| co_id := id2; co_story_id := id1; co_title := "C2";
            co_order := 0 |};
         {| co_id := id1; co_story_id := id1; co_title := "C1";
            co_order := 1 |}].
Proof. reflexivity. Qed.

Lemma listing_sorted_permutation_witness :
  exists docs : list ChapterDoc,
    Permutation docs
      (List.filter (fun c => String.eqb (ch_story_id c) id1)
                   (chapter (db w_spec))) /\
    (forall d, In d docs <->
               In d (chapter (db w_spec)) /\ ch_story_id d = id1) /\
    StronglySorted
      (fun a b => match ch_order a with Some z => z | None => 0 end
                  <= match ch_order b with Some z => z | None => 0 end)
      docs /\
    fst (list_chapters id1 w_spec)
    = inr (map (fun d =>
                  {| co_id := ObjectId_str (ch_id d);
                     co_story_id := ch_story_id d;
                     co_title := ch_title d;
                     co_order := match ch_order d with
                                 | Some z => z
                                 | None => 0
                                 end |}) docs) /\
    (forall out, fst (list_chapters id1 w_spec) = inr out ->
       StronglySorted (fun a b => co_order a <= co_order b) out).
Proof.
  exact (proj1 (listing_sorted_permutation w_spec) id1).
Defined.


Lemma get_story_detail_no_chapters_witness :
  exists st' w',
    In st' (story (db w_story_only)) /\ s_id st' = s_id story_AB /\
    (List.NoDup (map s_id (story (db w_story_only))) -> st' = story_AB) /\
    get_story_detail id1 w_story_only
    = (inr {| sd_id := ObjectId_str (s_id st');
              sd_title := s_title st';
              sd_author := s_author st';
              sd_cover_image := s_cover_image st';
              sd_description := s_description st';
              sd_chapters := [] |}, w') /\
    db w' = db w_story_only.
Proof.
  apply (get_story_detail_no_chapters id1 w_story_only story_AB).
  - left. reflexivity.
  - reflexivity.
  - intros c [].
Defined.

Lemma listing_never_fails_witness :
  list_chapters "not-an-id" w_spec
  = (inr [], {| db := db w_spec; log := log w_spec ++ [op_find c_chapter] |})
  /\
  list_bubbles id9 w_spec
  = (inr [], {| db := db w_spec; log := log w_spec ++ [op_find c_bubble] |}).
Proof.
  destruct (listing_never_fails w_spec) as [Hch Hbu]. split.
  - apply (proj2 (Hch "not-an-id")).
    intros c [<-|[<-|[]]]; discriminate.
  - apply (proj2 (Hbu id9)).
    intros b [<-|[]]. discriminate.
Defined.

Lemma missing_order_reads_as_zero_witness :
  (exists out,
     fst (list_chapters id1 w_legacy) = inr out /\
     In {| co_id := id1; co_story_id := id1; co_title := "old";
           co_order := 0 |} out)
  /\
  (exists out,
     fst (list_bubbles id1 w_legacy) = inr out /\
     In {| bo_id := id2; bo_chapter_id := id1;
           bo_content_html := "<p>old</p>"; bo_order := 0 |} out)
  /\
  (exists e, In e (sd_chapters
                     (story_detail_of story_A
                        (map (chapter_entry_of (db w_legacy))
                             (cursor_sort ch_order
                                (chapters_of id1 (db w_legacy))))))
             /\ ce_id e = id1 /\ ce_title e = "old" /\ ce_order e = 0)
  /\
  In {| be_id := id2; be_content_html := "<p>old</p>"; be_order := 0 |}
     (ce_bubbles (chapter_entry_of (db w_legacy) chapter_old)).
Proof.
  destruct (missing_order_reads_as_zero w_legacy)
    as (_ & _ & Hch & Hbu & Hdet).
  split; [|split; [|split]].
  - apply (Hch chapter_old).
    + left. reflexivity.
    + reflexivity.
  - apply (Hbu bubble_old).
    + right. left. reflexivity.
    + reflexivity.
  - apply (proj1 (Hdet id1 _ _
                       (get_story_detail_found id1 w_legacy (oid12 1) story_A
                          eq_refl eq_refl))
                 chapter_old).
    + left. reflexivity.
    + reflexivity.
    + reflexivity.
  - apply (proj2 (Hdet id1 _ _
                       (get_story_detail_found id1 w_legacy (oid12 1) story_A
                          eq_refl eq_refl))
                 (chapter_entry_of (db w_legacy) chapter_old) bubble_old).
    + left. reflexivity.
    + right. left. reflexivity.
    + reflexivity.
    + reflexivity.
Defined.

Lemma story_title_required_string_witness :
  route_create_story (∅ : gmap string json) w_empty
  = (inl RequestValidationError, w_empty)
  /\
  route_create_story body_numeric_title w_empty
  = (inl RequestValidationError, w_empty)
  /\
  route_create_story body_empty_title w_empty
  = (inr (ObjectId_str (ObjectId_new (map s_id (story (db w_empty))))),
     {| db := {| story := story (db w_empty)
                   ++ [{| s_id := ObjectId_new (map s_id (story (db w_empty)));
                          s_title := EmptyString; s_author := None;
                          s_cover_image := None; s_description := None |}];
                 chapter := chapter (db w_empty);
                 bubble := bubble (db w_empty) |};
        log := log w_empty ++ [op_insert_one c_story] |})
  /\
  route_create_story body_numeric_author w_empty
  = (inl RequestValidationError, w_empty).
Proof.
  split; [|split; [|split]].
  - apply (proj1 (story_title_required_string ∅ w_empty)).
    reflexivity.
  - apply (proj1 (proj2 (story_title_required_string body_numeric_title
                                                     w_empty))
                 (JNum 7)).
    + reflexivity.
    + intros s. discriminate.
  - apply (proj1 (proj2 (proj2 (proj2
             (story_title_required_string body_empty_title w_empty))))
                 EmptyString None None None).
    + reflexivity.
    + exact field_absent.
    + exact field_absent.
    + exact field_absent.
  - apply (proj2 (proj2 (proj2 (proj2
             (story_title_required_string body_numeric_author w_empty))))
                 "author" (JNum 5)).
    + left. reflexivity.
    + reflexivity.
    + discriminate.
    + intros s. discriminate.
Defined.

(** C7 as stated does not hold: a story-create request whose title is the
    empty string is not rejected; it is answered with a new id and the story
    is stored. *)
Lemma empty_title_is_stored :
  body_empty_title !! "title" = Some (JStr EmptyString)
  /\ route_create_story body_empty_title w_empty
     = (inr id1,
        {| db := {| story :=
                      [{| s_id := oid12 1; s_title := EmptyString;
                          s_author := None; s_cover_image := None;
                          s_description := None |}];
                    chapter := []; bubble := [] |};
           log := [op_insert_one c_story] |})
  /\ (forall e, fst (route_create_story body_empty_title w_empty) <> inl e)
  /\ story (db (snd (route_create_story body_empty_title w_empty)))
     <> story (db w_empty).
Proof.
  split; [reflexivity|]. split; [reflexivity|]. split.
  - intros e. discriminate.
  - discriminate.
Qed.

(** C8 at a failing input: in the store of the example, a chapter for the
    existing story S1 with order -1, and a bubble for the existing chapter C2
    with order -1.  The parent count is issued first, the schema then raises
    inside the handler, and the request ends as an unhandled exception (500),
    not as a client error; nothing is written. *)
Theorem negative_order_rejected_late :
  create_chapter {| cc_story_id := id1; cc_title := "C3"; cc_order := -1 |}
                 w_spec
  = (inl (Unhandled "pydantic.ValidationError"),
     {| db := db w_spec; log := [op_count_documents c_story] |})
  /\
  create_bubble {| bc_chapter_id := id2; bc_content_html := "<p>y</p>";
                   bc_order := -1 |} w_spec
  = (inl (Unhandled "pydantic.ValidationError"),
     {| db := db w_spec; log := [op_count_documents c_chapter] |})
  /\ status_of_exn (Unhandled "pydantic.ValidationError") = 500
  /\ is_client_error (status_of_exn (Unhandled "pydantic.ValidationError"))
     = false
  /\ is_server_error (status_of_exn (Unhandled "pydantic.ValidationError"))
     = true.
Proof. repeat split. Qed.

(* ===================================================================== *)
(** ** Properties of the diagnostic endpoint *)
(* ===================================================================== *)

(** X17: the diagnostic endpoint reports at most ten collection names, and they
    are the first names the store lists, in the store's order; when listing
    the collections fails, the failure is reported in the [database] field
    with at most 80 characters of its message, the connection still counts
    as "Connected" and no collection is reported. *)
Theorem test_database_collections (db_handle : option DbHandle)
        (DATABASE_URL : option pystr) :
  (length (r_collections (test_database db_handle DATABASE_URL)) <= 10)%nat
  /\
  (forall h names,
     db_handle = Some h ->
     (forall msg, h_name h <> name_raises msg) ->
     h_list_collection_names h = inr names ->
     r_collections (test_database db_handle DATABASE_URL) = firstn 10 names
     /\ r_database (test_database db_handle DATABASE_URL)
        = (check_mark ++ py " Connected & Working")%list)
  /\
  (forall h msg,
     db_handle = Some h ->
     (forall msg', h_name h <> name_raises msg') ->
     h_list_collection_names h = inl msg ->
     r_collections (test_database db_handle DATABASE_URL) = []
     /\ r_connection_status (test_database db_handle DATABASE_URL)
        = py "Connected"
     /\ r_database (test_database db_handle DATABASE_URL)
        = (warning_sign ++ py "  Connected but Error: " ++ firstn 80 msg)%list
     /\ (length (r_database (test_database db_handle DATABASE_URL))
         <= 25 + 80)%nat).
Proof.
  split; [|split].
  - unfold test_database. destruct db_handle as [h|]; [|cbn; lia].
    destruct (h_name h); try (cbn; lia);
      destruct (h_list_collection_names h) as [msg|names];
      cbn [set_database set_collections r_collections];
      try (cbn; lia); apply List.firstn_le_length.
  - intros h names -> Hname Hlist. unfold test_database. rewrite Hlist.
    destruct (h_name h) as [|s|msg]; try (split; reflexivity).
    exfalso. exact (Hname msg eq_refl).
  - intros h msg -> Hname Hlist. unfold test_database. rewrite Hlist.
    destruct (h_name h) as [|s|msg']; [| |exfalso; exact (Hname msg' eq_refl)].
    + split; [reflexivity|]. split; [reflexivity|]. split; [reflexivity|].
      cbn [set_database r_database]. rewrite !length_app.
      pose proof (List.firstn_le_length 80 msg). cbn. lia.
    + split; [reflexivity|]. split; [reflexivity|]. split; [reflexivity|].
      cbn [set_database r_database]. rewrite !length_app.
      pose proof (List.firstn_le_length 80 msg). cbn. lia.
Qed.

(** X18: the [database] text the response starts with ("Not Available") is never
    the one returned: every path through [test_database] overwrites it, also
    when no store handle exists. *)
Theorem test_database_never_not_available (db_handle : option DbHandle)
        (DATABASE_URL : option pystr) :
  r_database (test_database db_handle DATABASE_URL)
  <> r_database initial_response
  /\ r_backend (test_database db_handle DATABASE_URL)
     = r_backend initial_response.
Proof.
  unfold test_database. split.
  - destruct db_handle as [h|]; [|cbn; discriminate].
    destruct (h_name h) as [|s|msg];
      try (destruct (h_list_collection_names h) as [m|names]);
      cbn; discriminate.
  - destruct db_handle as [h|]; [|reflexivity].
    destruct (h_name h) as [|s|msg];
      try (destruct (h_list_collection_names h) as [m|names]);
      reflexivity.
Qed.

(** X19: without a store handle nothing about the store is reported: no URL
    status, no name, no collections, and the connection is "Not Connected";
    with a handle whose name can be read the connection is "Connected" and
    the URL status is "Set" exactly when the variable is set and not
    empty. *)
Theorem test_database_connection (DATABASE_URL : option pystr) :
  (r_database_url (test_database None DATABASE_URL) = None /\
   r_database_name (test_database None DATABASE_URL) = None /\
   r_collections (test_database None DATABASE_URL) = [] /\
   r_connection_status (test_database None DATABASE_URL)
   = py "Not Connected")
  /\
  (forall h,
     (forall msg, h_name h <> name_raises msg) ->
     r_connection_status (test_database (Some h) DATABASE_URL)
     = py "Connected" /\
     (r_database_url (test_database (Some h) DATABASE_URL)
      = Some (check_mark ++ py " Set")%list
      <-> exists c s, DATABASE_URL = Some (c :: s))).
Proof.
  split; [repeat split|].
  intros h Hname.
  assert (Hurl : r_database_url (test_database (Some h) DATABASE_URL)
                 = Some (if env_truthy DATABASE_URL
                         then (check_mark ++ py " Set")%list
                         else (cross_mark ++ py " Not Set")%list)).
  { unfold test_database.
    destruct (h_name h) as [|nm|msg];
      try (destruct (h_list_collection_names h) as [m|names]);
      reflexivity. }
  split.
  - unfold test_database.
    destruct (h_name h) as [|nm|msg];
      [| |exfalso; exact (Hname msg eq_refl)];
      destruct (h_list_collection_names h) as [m|names]; reflexivity.
  - rewrite Hurl. destruct DATABASE_URL as [[|c0 s0]|]; cbn; split.
    + discriminate.
    + intros (c' & s' & H). discriminate H.
    + intros _. eauto.
    + reflexivity.
    + discriminate.
    + intros (c' & s' & H). discriminate H.
Qed.

(* ===================================================================== *)
(** ** More runs on concrete requests *)
(* ===================================================================== *)

Lemma get_story_detail_succeeds_iff_witness :
  exists detail w', get_story_detail id1 w_spec = (inr detail, w').
Proof.
  apply (proj2 (get_story_detail_succeeds_iff id1 w_spec)).
  exists story_A. split; [left; reflexivity|reflexivity].
Defined.

Lemma create_chapter_success_stores_payload_witness :
  (exists d, In d (story (db w_spec)) /\
             ObjectId_parse (cc_story_id payload_C3) = Some (s_id d)) /\
  0 <= cc_order payload_C3 /\
  exists o,
    id3 = ObjectId_str o /\
    (forall c, In c (chapter (db w_spec)) -> ch_id c <> o) /\
    db (snd (create_chapter payload_C3 w_spec))
    = {| story := story (db w_spec);
         chapter := chapter (db w_spec)
           ++ [{| ch_id := o; ch_story_id := cc_story_id payload_C3;
                  ch_title := cc_title payload_C3;
                  ch_order := Some (cc_order payload_C3) |}];
         bubble := bubble (db w_spec) |} /\
    log (snd (create_chapter payload_C3 w_spec))
    = (log w_spec ++ [op_count_documents c_story;
                      op_insert_one c_chapter])%list.
Proof.
  exact (create_chapter_success_stores_payload
           payload_C3 w_spec (snd (create_chapter payload_C3 w_spec)) id3
           eq_refl).
Defined.

Lemma create_bubble_success_stores_payload_witness :
  (exists d, In d (chapter (db w_spec)) /\
             ObjectId_parse (bc_chapter_id payload_B2) = Some (ch_id d)) /\
  0 <= bc_order payload_B2 /\
  exists o,
    id2 = ObjectId_str o /\
    (forall b, In b (bubble (db w_spec)) -> b_id b <> o) /\
    db (snd (create_bubble payload_B2 w_spec))
    = {| story := story (db w_spec);
         chapter := chapter (db w_spec);
         bubble := bubble (db w_spec)
           ++ [{| b_id := o; b_chapter_id := bc_chapter_id payload_B2;
                  b_content_html := bc_content_html payload_B2;
                  b_order := Some (bc_order payload_B2) |}] |} /\
    log (snd (create_bubble payload_B2 w_spec))
    = (log w_spec ++ [op_count_documents c_chapter;
                      op_insert_one c_bubble])%list.
Proof.
  exact (create_bubble_success_stores_payload
           payload_B2 w_spec (snd (create_bubble payload_B2 w_spec)) id2
           eq_refl).
Defined.

Lemma get_story_detail_query_count_witness :
  log (snd (get_story_detail id1 w_spec))
  = [op_find_one c_story; op_find c_chapter;
     op_find c_bubble; op_find c_bubble].
Proof.
  exact (get_story_detail_query_count id1 w_spec _ _
           (get_story_detail_found id1 w_spec (oid12 1) story_A eq_refl eq_refl)).
Defined.

Lemma create_story_then_detail_witness :
  exists id w1 detail w2,
    create_story {| sc_title := "T"; sc_author := Some "U";
                    sc_cover_image := None; sc_description := None |}
                 w_spec = (inr id, w1) /\
    get_story_detail id w1 = (inr detail, w2) /\
    sd_id detail = id /\ sd_title detail = "T" /\
    sd_author detail = Some "U" /\ sd_chapters detail = [].
Proof.
  destruct (create_story_then_detail
              {| sc_title := "T"; sc_author := Some "U";
                 sc_cover_image := None; sc_description := None |}
              w_spec eq_refl)
    as (id & w1 & detail & w2 & Hc & Hd & Hid & Ht & Ha & _ & _ & Hch).
  exists id, w1, detail, w2.
  split; [exact Hc|]. split; [exact Hd|]. split; [exact Hid|].
  split; [exact Ht|]. split; [exact Ha|].
  apply Hch. injection Hc as <- _.
  intros c [<-|[<-|[]]]; discriminate.
Defined.

Lemma create_chapter_then_list_witness :
  exists id w1 before after,
    create_chapter {| cc_story_id := id1; cc_title := "C3"; cc_order := 2 |}
                   w_spec = (inr id, w1) /\
    fst (list_chapters id1 w_spec) = inr before /\
    fst (list_chapters id1 w1) = inr after /\
    Permutation after
      ({| co_id := id; co_story_id := id1; co_title := "C3";
          co_order := 2 |} :: before).
Proof.
  destruct (create_chapter_then_list
              {| cc_story_id := id1; cc_title := "C3"; cc_order := 2 |}
              w_spec story_A)
    as (id & w1 & before & after & Hc & Hb & Ha & Hp & _).
  - left. reflexivity.
  - reflexivity.
  - cbn. lia.
  - exists id, w1, before, after. auto.
Defined.

Lemma create_bubble_then_list_witness :
  exists id w1 before after,
    create_bubble {| bc_chapter_id := id2; bc_content_html := "<p>y</p>";
                     bc_order := 0 |} w_spec = (inr id, w1) /\
    fst (list_bubbles id2 w_spec) = inr before /\
    fst (list_bubbles id2 w1) = inr after /\
    Permutation after
      ({| bo_id := id; bo_chapter_id := id2;
          bo_content_html := "<p>y</p>"; bo_order := 0 |} :: before).
Proof.
  destruct (create_bubble_then_list
              {| bc_chapter_id := id2; bc_content_html := "<p>y</p>";
                 bc_order := 0 |}
              w_spec
              chapter_C2)
    as (id & w1 & before & after & Hc & Hb & Ha & Hp & _).
  - right. left. reflexivity.
  - reflexivity.
  - cbn. lia.
  - exists id, w1, before, after. auto.
Defined.


Lemma create_bubble_then_detail_witness :
  exists id w1,
    create_bubble {| bc_chapter_id := id2; bc_content_html := "<p>y</p>";
                     bc_order := 0 |} w_spec = (inr id, w1) /\
    forall detail w2 e,
      get_story_detail id1 w1 = (inr detail, w2) ->
      In e (sd_chapters detail) ->
      ce_id e = id2 ->
      In {| be_id := id; be_content_html := "<p>y</p>"; be_order := 0 |}
         (ce_bubbles e).
Proof.
  destruct (create_bubble_then_detail
              {| bc_chapter_id := id2; bc_content_html := "<p>y</p>";
                 bc_order := 0 |}
              w_spec
              chapter_C2)
    as (id & w1 & Hc & Hshow).
  - right. left. reflexivity.
  - reflexivity.
  - cbn. lia.
  - exists id, w1. split; [exact Hc|].
    intros detail w2 e. apply Hshow.
Defined.

Lemma w_spec_parents_exist : parents_exist (db w_spec).
Proof.
  split.
  - intros c Hc. exists story_A. split; [left; reflexivity|].
    destruct Hc as [<-|[<-|[]]]; reflexivity.
  - intros b Hb.
    exists chapter_C1.
    split; [left; reflexivity|].
    destruct Hb as [<-|[]]; reflexivity.
Defined.

Lemma creates_keep_parents_witness :
  parents_exist (db (snd (create_bubble
                            {| bc_chapter_id := id2;
                               bc_content_html := "<p>y</p>";
                               bc_order := 0 |} w_spec))).
Proof.
  exact (proj2 (proj2 (creates_keep_parents
                         w_spec w_spec_parents_exist)) _).
Defined.

Lemma w_legacy_no_negative_order : no_negative_order (db w_legacy).
Proof.
  split.
  - intros c z [<-|[<-|[]]] H; [discriminate H|].
    injection H as <-. lia.
  - intros b z [<-|[<-|[]]] H; [|discriminate H].
    injection H as <-. lia.
Defined.

Lemma creates_keep_orders_nonnegative_witness :
  no_negative_order (db (snd (create_chapter
                                {| cc_story_id := id1; cc_title := "C3";
                                   cc_order := 2 |} w_legacy))).
Proof.
  exact (proj1 (proj2 (creates_keep_orders_nonnegative
                         w_legacy w_legacy_no_negative_order)) _).
Defined.

Lemma get_story_detail_sorted_witness :
  StronglySorted (fun a b => ce_order a <= ce_order b)
    (sd_chapters (story_detail_of story_A
                    (map (chapter_entry_of (db w_legacy))
                         (cursor_sort ch_order
                            (chapters_of id1 (db w_legacy))))))
  /\
  Forall (fun e => StronglySorted (fun a b => be_order a <= be_order b)
                                  (ce_bubbles e))
    (sd_chapters (story_detail_of story_A
                    (map (chapter_entry_of (db w_legacy))
                         (cursor_sort ch_order
                            (chapters_of id1 (db w_legacy)))))).
Proof.
  exact (get_story_detail_sorted id1 w_legacy _ _
           w_legacy_no_negative_order
           (get_story_detail_found id1 w_legacy (oid12 1) story_A
              eq_refl eq_refl)).
Defined.

Lemma get_story_detail_agrees_with_listings_witness :
  exists out,
    fst (list_chapters id1 w_spec) = inr out /\
    Permutation
      [(id2, "C2", 0); (id1, "C1", 1)]
      (map (fun o => (co_id o, co_title o, co_order o)) out).
Proof.
  exact (proj1 (get_story_detail_agrees_with_listings id1 w_spec _ _
                  (get_story_detail_found id1 w_spec (oid12 1) story_A
                     eq_refl eq_refl))).
Defined.

(** Without the restriction to non-negative orders the detail view need not
    be in the order it shows: a chapter without [order] is shown with 0 but
    is placed before a chapter with order -1, while the listing places it
    after. *)
Example detail_order_with_negative :
  (exists detail w',
     get_story_detail id1 w_negative = (inr detail, w') /\
     map ce_order (sd_chapters detail) = [0; -1]) /\
  (exists out,
     fst (list_chapters id1 w_negative) = inr out /\
     map co_order out = [-1; 0]).
Proof.
  split.
  - eexists _, _. split; reflexivity.
  - eexists. split; reflexivity.
Qed.

Lemma test_database_collections_witness :
  (r_collections (test_database (Some handle_ok) None)
   = firstn 10 [py "story"; py "chapter"; py "bubble"]
   /\ r_database (test_database (Some handle_ok) None)
      = (check_mark ++ py " Connected & Working")%list)
  /\
  (r_collections (test_database (Some handle_failing) None) = []
   /\ r_connection_status (test_database (Some handle_failing) None)
      = py "Connected"
   /\ r_database (test_database (Some handle_failing) None)
      = (warning_sign ++ py "  Connected but Error: "
           ++ firstn 80 (py "connection refused"))%list
   /\ (length (r_database (test_database (Some handle_failing) None))
       <= 25 + 80)%nat).
Proof.
  split.
  - apply (proj1 (proj2 (test_database_collections (Some handle_ok) None))
                 handle_ok).
    + reflexivity.
    + intros msg. discriminate.
    + reflexivity.
  - apply (proj2 (proj2 (test_database_collections (Some handle_failing)
                                                   None))
                 handle_failing).
    + reflexivity.
    + intros msg. discriminate.
    + reflexivity.
Defined.

Lemma test_database_connection_witness :
  r_connection_status (test_database (Some handle_ok) (Some []))
  = py "Connected" /\
  (r_database_url (test_database (Some handle_ok) (Some (py "mongodb://h")))
   = Some (check_mark ++ py " Set")%list).
Proof.
  split.
  - apply (proj2 (test_database_connection (Some [])) handle_ok).
    intros msg. discriminate.
  - apply (proj2 (proj2 (test_database_connection (Some (py "mongodb://h")))
                        handle_ok (fun msg => ltac:(discriminate)))).
    eexists _, _. reflexivity.
Defined.
